(** * Next-hop selection strategy: configuration loading and retry predicates

    A shallow embedding of [PLNextHopSelectionStrategy] (the parent-select
    plugin's strategy.cc): [Init], [nextHopExists], [codeIsFailure],
    [onFailureMarkParentDown] and the two [YAML::convert<>::decode]
    specialisations, followed by the properties of the specification that
    concern them. *)

From Stdlib Require Import Ascii String ZArith List Bool Lia Permutation.
Import ListNotations.
Local Open Scope string_scope.
Local Open Scope list_scope.
Local Open Scope Z_scope.
Set Warnings "-register-all".

(** ** The yaml-cpp document tree

    [YAML::Node] as the code observes it.  A configuration is taken to be a
    tree: no node is reachable from two places through an anchor.  Under that
    reading the entries that the non-const [operator[]] inserts on a miss are
    never observed, and the const and the non-const subscripts give the same
    answers, so one [subscript] stands for both.  [Undefined] stands both for a
    node that is not [IsDefined()] and for the invalid node a const lookup
    returns on a miss; the code never asks [Type()] of the latter. *)

Inductive Node : Type :=
| Undefined
| Null
| Scalar (s : string)
| Sequence (l : list Node)
| Map (kv : list (string * Node)).

(** What the code can catch as [std::exception]. *)
Inductive exn : Type :=
| BadSubscript
| InvalidNode
| BadConversion
| invalid_argument (what : string).

Inductive outcome (A : Type) : Type :=
| Returned (a : A)
| Thrown (e : exn).
Arguments Returned {A} a.
Arguments Thrown {A} e.

(** [Node::operator bool], i.e. [IsDefined()]. *)
Definition IsDefined (n : Node) : bool :=
  match n with Undefined => false | _ => true end.

(** [n.Type() == YAML::NodeType::Sequence]. *)
Definition IsSequence (n : Node) : bool :=
  match n with Sequence _ => true | _ => false end.

(** [Node::Scalar()]: the text of a scalar, the empty string otherwise. *)
Definition Scalar_of (n : Node) : string :=
  match n with Scalar s => s | _ => "" end.

(** [Node::size()] and iteration see the entries of a sequence; as in a
    parsed document, every entry of a sequence is a defined node. *)
Definition elements (n : Node) : list Node :=
  match n with Sequence l => l | _ => [] end.

Fixpoint find_key (key : string) (kv : list (string * Node)) : Node :=
  match kv with
  | [] => Undefined
  | (k, v) :: rest => if String.eqb k key then v else find_key key rest
  end.

(** [n[key]] for a string key: the first entry of a map with that key; a
    scalar cannot be subscripted; everything else has no such entry. *)
Definition subscript (n : Node) (key : string) : outcome Node :=
  match n with
  | Map kv => Returned (find_key key kv)
  | Scalar _ => Thrown BadSubscript
  | _ => Returned Undefined
  end.

(** [n[i]] for an index inside a sequence. *)
Definition at_index (n : Node) (i : nat) : Node :=
  nth i (elements n) Undefined.

(** ** Enumerations and records of strategy.h *)

Inductive PLNHSchemeType : Type :=
| PL_NH_SCHEME_NONE
| PL_NH_SCHEME_HTTP
| PL_NH_SCHEME_HTTPS.

Inductive PLNHRingMode : Type :=
| PL_NH_ALTERNATE_RING
| PL_NH_EXHAUST_RING.

Record PLNHHealthChecks : Type := mkHealthChecks {
  active : bool;
  passive : bool
}.

Record PLNHProtocol : Type := mkProtocol {
  proto_scheme : PLNHSchemeType;
  port : Z;
  health_check_url : string
}.

Inductive TSHostStatus : Type :=
| TS_HOST_STATUS_INIT
| TS_HOST_STATUS_DOWN
| TS_HOST_STATUS_UP.

Inductive TSHostStatusReason : Type :=
| TS_HOST_STATUS_ACTIVE
| TS_HOST_STATUS_LOCAL
| TS_HOST_STATUS_MANUAL
| TS_HOST_STATUS_SELF_DETECT.

(** One call [TSHostStatusSet(hostname, length, status, down_time, reason)]. *)
Record HostStatusSet : Type := mkHostStatusSet {
  hs_hostname : string;
  hs_status : TSHostStatus;
  hs_down_time : Z;
  hs_reason : TSHostStatusReason
}.

(** The [PL_NH_Note] and [PL_NH_Error] lines of the file, with their
    arguments.  [PL_NH_Debug] tracing is left out. *)
Inductive LogLine : Type :=
| Note_invalid_scheme (scheme_val name : string)
| Note_invalid_ring_mode (ring_mode_val name : string)
| Error_response_codes (name : string)
| Note_skipping_code (code : Z) (name : string)
| Error_health_check (name : string)
| Note_groups_exceed (name : string)
| Note_no_weight (host : string)
| Note_error_parsing (name : string) (ex : exn).

(** ** What the file takes from its environment

    Modelled from the spec: strategy.h, which declares PL_NH_MAX_GROUP_RINGS
    and STATUS_CONNECTION_FAILURE, is not among the sources.  The
    specification says of the first that it caps the number of host groups
    (32, for example) and of the second that it is an integer that is not an
    HTTP status of the classes 3xx to 5xx; both are parameters here, with
    just these properties.  The scalar conversions of yaml-cpp and the
    Traffic Server call [TSHostnameIsSelf] are parameters as well. *)
Class Platform : Type := {
  (** the C++ type [float] and the literal [1.0] converted to it *)
  float : Type;
  float_1_0 : float;
  (** the weight of a default-constructed host record *)
  float_default : float;
  (** [convert<bool>], [convert<int>] and [convert<float>] on the text of a
      scalar; [None] when the text does not convert *)
  scalar_as_bool : string -> option bool;
  scalar_as_int : string -> option Z;
  scalar_as_float : string -> option float;
  (** [as<std::string>()] of a null node: some releases of yaml-cpp answer
      with a fixed text, the others throw *)
  null_as_string : option string;
  (** [TSHostnameIsSelf(name, len) == TS_SUCCESS] *)
  TSHostnameIsSelf : string -> bool;
  (** the cap on the number of host groups, which fits [uint32_t] *)
  PL_NH_MAX_GROUP_RINGS : Z;
  max_group_rings_range : 0 <= PL_NH_MAX_GROUP_RINGS < 2 ^ 32;
  (** the status that stands for a failed connection *)
  STATUS_CONNECTION_FAILURE : Z;
  connection_failure_not_http :
    ~ (300 <= STATUS_CONNECTION_FAILURE <= 599)
}.

Section Data.
Context {P : Platform}.

Record PLHostRecord : Type := mkHostRecord {
  hostname : string;
  protocols : list PLNHProtocol;
  weight : float;
  hash_string : string;
  group_index : Z;
  host_index : Z;
  available : bool
}.

(** Modelled from the spec: PLResponseCodes is declared in strategy.h, which
    is not among the sources.  The specification describes it as a sortable,
    deduplicated collection of status codes whose lookup is plain
    membership: adding a code that is already there changes nothing. *)
Definition PLResponseCodes : Type := list Z.

Definition codes_contains (code : Z) (codes : PLResponseCodes) : bool :=
  existsb (Z.eqb code) codes.

Definition codes_add (code : Z) (codes : PLResponseCodes) : PLResponseCodes :=
  if codes_contains code codes then codes else codes ++ [code].

Fixpoint insert_sorted (c : Z) (l : list Z) : list Z :=
  match l with
  | [] => [c]
  | x :: rest => if c <=? x then c :: l else x :: insert_sorted c rest
  end.

Definition codes_sort (codes : PLResponseCodes) : PLResponseCodes :=
  fold_right insert_sorted [] codes.

Record PLNextHopSelectionStrategy : Type := mkStrategy {
  strategy_name : string;
  scheme : PLNHSchemeType;
  go_direct : bool;
  parent_is_proxy : bool;
  ignore_self_detect : bool;
  ring_mode : PLNHRingMode;
  max_simple_retries : Z;
  resp_codes : PLResponseCodes;
  health_checks : PLNHHealthChecks;
  groups : Z;
  num_parents : Z;
  host_groups : list (list PLHostRecord);
  (** the vectors handed to [passive_health.insert], in call order *)
  passive_health : list (list PLHostRecord)
}.

(** Modelled from the spec: the member initialisers are in strategy.h, which is
    not among the sources.  The constructor of the file sets the name; a new
    strategy has no response codes, no groups and no parents. *)
Definition new_strategy (name : string) : PLNextHopSelectionStrategy :=
  {| strategy_name := name;
     scheme := PL_NH_SCHEME_NONE;
     go_direct := true;
     parent_is_proxy := true;
     ignore_self_detect := false;
     ring_mode := PL_NH_ALTERNATE_RING;
     max_simple_retries := 1;
     resp_codes := [];
     health_checks := mkHealthChecks false false;
     groups := 0;
     num_parents := 0;
     host_groups := [];
     passive_health := [] |}.

(** Modelled from the spec: the default constructors of PLNHProtocol and
    PLHostRecord are in strategy.h.  A host is available until it is marked
    down; [decode] below overwrites every other field it reads back. *)
Definition new_protocol : PLNHProtocol :=
  mkProtocol PL_NH_SCHEME_NONE 0 "".

Definition new_host_record : PLHostRecord :=
  {| hostname := ""; protocols := []; weight := float_default; hash_string := "";
     group_index := -1; host_index := -1; available := true |}.

(** ** State and control

    The strategy being initialised, the calls made on the host status store
    and the lines logged.  A throw keeps the state reached so far. *)
Record State : Type := mkState {
  this : PLNextHopSelectionStrategy;
  host_status : list HostStatusSet;
  logged : list LogLine
}.

Definition M (A : Type) : Type := State -> outcome A * State.

Definition ret {A} (a : A) : M A := fun st => (Returned a, st).

Definition bind {A B} (m : M A) (k : A -> M B) : M B :=
  fun st =>
    match m st with
    | (Returned a, st') => k a st'
    | (Thrown e, st') => (Thrown e, st')
    end.

Definition throw {A} (e : exn) : M A := fun st => (Thrown e, st).

Definition lift {A} (o : outcome A) : M A := fun st => (o, st).

Definition get_this : M PLNextHopSelectionStrategy :=
  fun st => (Returned (this st), st).

Definition update (f : PLNextHopSelectionStrategy -> PLNextHopSelectionStrategy)
  : M unit :=
  fun st => (Returned tt, mkState (f (this st)) (host_status st) (logged st)).

Definition log_line (l : LogLine) : M unit :=
  fun st => (Returned tt, mkState (this st) (host_status st) (logged st ++ [l])).

Definition TSHostStatusSet (c : HostStatusSet) : M unit :=
  fun st => (Returned tt, mkState (this st) (host_status st ++ [c]) (logged st)).

Definition when (b : bool) (m : M unit) : M unit :=
  if b then m else ret tt.

(** A log line that prints [strategy_name.c_str()]. *)
Definition log_named (l : string -> LogLine) : M unit :=
  fun st => log_line (l (strategy_name (this st))) st.

(** [throw std::invalid_argument(before + strategy_name + after)]. *)
Definition throw_named {A} (before after : string) : M A :=
  fun st =>
    throw (invalid_argument
             (String.append before (String.append (strategy_name (this st)) after)))
          st.

End Data.

Declare Scope strategy_scope.
Delimit Scope strategy_scope with strategy.
Notation "x <- m ;; k" := (bind m (fun x => k))
  (at level 100, m at next level, right associativity) : strategy_scope.
Notation "m ;; k" := (bind m (fun _ => k))
  (at level 100, right associativity) : strategy_scope.
Local Open Scope strategy_scope.

Section Operations.
Context {P : Platform}.

(** ** Field assignments *)

Definition set_scheme (v : PLNHSchemeType) (s : PLNextHopSelectionStrategy) :=
  mkStrategy (strategy_name s) v (go_direct s) (parent_is_proxy s)
    (ignore_self_detect s) (ring_mode s) (max_simple_retries s) (resp_codes s)
    (health_checks s) (groups s) (num_parents s) (host_groups s)
    (passive_health s).

Definition set_go_direct (v : bool) (s : PLNextHopSelectionStrategy) :=
  mkStrategy (strategy_name s) (scheme s) v (parent_is_proxy s)
    (ignore_self_detect s) (ring_mode s) (max_simple_retries s) (resp_codes s)
    (health_checks s) (groups s) (num_parents s) (host_groups s)
    (passive_health s).

Definition set_parent_is_proxy (v : bool) (s : PLNextHopSelectionStrategy) :=
  mkStrategy (strategy_name s) (scheme s) (go_direct s) v
    (ignore_self_detect s) (ring_mode s) (max_simple_retries s) (resp_codes s)
    (health_checks s) (groups s) (num_parents s) (host_groups s)
    (passive_health s).

Definition set_ignore_self_detect (v : bool) (s : PLNextHopSelectionStrategy) :=
  mkStrategy (strategy_name s) (scheme s) (go_direct s) (parent_is_proxy s)
    v (ring_mode s) (max_simple_retries s) (resp_codes s)
    (health_checks s) (groups s) (num_parents s) (host_groups s)
    (passive_health s).

Definition set_ring_mode (v : PLNHRingMode) (s : PLNextHopSelectionStrategy) :=
  mkStrategy (strategy_name s) (scheme s) (go_direct s) (parent_is_proxy s)
    (ignore_self_detect s) v (max_simple_retries s) (resp_codes s)
    (health_checks s) (groups s) (num_parents s) (host_groups s)
    (passive_health s).

Definition set_max_simple_retries (v : Z) (s : PLNextHopSelectionStrategy) :=
  mkStrategy (strategy_name s) (scheme s) (go_direct s) (parent_is_proxy s)
    (ignore_self_detect s) (ring_mode s) v (resp_codes s)
    (health_checks s) (groups s) (num_parents s) (host_groups s)
    (passive_health s).

Definition set_resp_codes (v : PLResponseCodes) (s : PLNextHopSelectionStrategy) :=
  mkStrategy (strategy_name s) (scheme s) (go_direct s) (parent_is_proxy s)
    (ignore_self_detect s) (ring_mode s) (max_simple_retries s) v
    (health_checks s) (groups s) (num_parents s) (host_groups s)
    (passive_health s).

Definition set_health_checks (v : PLNHHealthChecks) (s : PLNextHopSelectionStrategy) :=
  mkStrategy (strategy_name s) (scheme s) (go_direct s) (parent_is_proxy s)
    (ignore_self_detect s) (ring_mode s) (max_simple_retries s) (resp_codes s)
    v (groups s) (num_parents s) (host_groups s)
    (passive_health s).

Definition set_groups (v : Z) (s : PLNextHopSelectionStrategy) :=
  mkStrategy (strategy_name s) (scheme s) (go_direct s) (parent_is_proxy s)
    (ignore_self_detect s) (ring_mode s) (max_simple_retries s) (resp_codes s)
    (health_checks s) v (num_parents s) (host_groups s)
    (passive_health s).

Definition set_num_parents (v : Z) (s : PLNextHopSelectionStrategy) :=
  mkStrategy (strategy_name s) (scheme s) (go_direct s) (parent_is_proxy s)
    (ignore_self_detect s) (ring_mode s) (max_simple_retries s) (resp_codes s)
    (health_checks s) (groups s) v (host_groups s)
    (passive_health s).

Definition set_host_groups (v : list (list PLHostRecord))
  (s : PLNextHopSelectionStrategy) :=
  mkStrategy (strategy_name s) (scheme s) (go_direct s) (parent_is_proxy s)
    (ignore_self_detect s) (ring_mode s) (max_simple_retries s) (resp_codes s)
    (health_checks s) (groups s) (num_parents s) v
    (passive_health s).

Definition set_passive_health (v : list (list PLHostRecord))
  (s : PLNextHopSelectionStrategy) :=
  mkStrategy (strategy_name s) (scheme s) (go_direct s) (parent_is_proxy s)
    (ignore_self_detect s) (ring_mode s) (max_simple_retries s) (resp_codes s)
    (health_checks s) (groups s) (num_parents s) (host_groups s)
    v.

(** ** [Node::as<T>()] for the scalar types *)

Definition convert_scalar {A} (conv : string -> option A) (n : Node) : outcome A :=
  match n with
  | Undefined => Thrown InvalidNode
  | Scalar s =>
      match conv s with
      | Some a => Returned a
      | None => Thrown BadConversion
      end
  | _ => Thrown BadConversion
  end.

Definition as_bool : Node -> outcome bool := convert_scalar scalar_as_bool.
Definition as_int : Node -> outcome Z := convert_scalar scalar_as_int.
Definition as_float : Node -> outcome float := convert_scalar scalar_as_float.
Definition as_string (n : Node) : outcome string :=
  match n, null_as_string with
  | Null, Some text => Returned text
  | _, _ => convert_scalar Some n
  end.

(** [for (unsigned i = 0; i < count; ++i) body(i)], left at the first throw. *)
Fixpoint for_range (count : nat) (i : nat) (body : nat -> M unit) : M unit :=
  match count with
  | O => ret tt
  | S count' => body i ;; for_range count' (S i) body
  end.

(** [for (auto &&k : l) body(k)], left at the first throw. *)
Fixpoint for_each {A} (l : list A) (body : A -> M unit) : M unit :=
  match l with
  | [] => ret tt
  | k :: rest => body k ;; for_each rest body
  end.

(** [for (i = first; i < first + count; ++i) acc = body(i, acc)], for a loop
    that builds a local value; left at the first throw. *)
Fixpoint for_range_acc {B} (count : nat) (i : nat) (acc : B)
  (body : nat -> B -> M B) : M B :=
  match count with
  | O => ret acc
  | S count' => acc' <- body i acc ;; for_range_acc count' (S i) acc' body
  end.

Fixpoint for_each_acc {A B} (l : list A) (acc : B) (body : A -> B -> M B) : M B :=
  match l with
  | [] => ret acc
  | k :: rest => acc' <- body k acc ;; for_each_acc rest acc' body
  end.

(** ** [YAML::convert<PLNHProtocol>::decode] *)

Definition decode_PLNHProtocol (node : Node) (nh : PLNHProtocol) : M PLNHProtocol :=
  sch <- lift (subscript node "scheme") ;;
  let nh :=
    if IsDefined sch then
      if (Scalar_of sch =? "http")%string then
        mkProtocol PL_NH_SCHEME_HTTP (port nh) (health_check_url nh)
      else if (Scalar_of sch =? "https")%string then
        mkProtocol PL_NH_SCHEME_HTTPS (port nh) (health_check_url nh)
      else
        mkProtocol PL_NH_SCHEME_NONE (port nh) (health_check_url nh)
    else nh in
  prt <- lift (subscript node "port") ;;
  nh <- (if IsDefined prt then
           v <- lift (as_int prt) ;;
           ret (mkProtocol (proto_scheme nh) v (health_check_url nh))
         else ret nh) ;;
  url <- lift (subscript node "health_check_url") ;;
  let nh :=
    if IsDefined url then mkProtocol (proto_scheme nh) (port nh) (Scalar_of url)
    else nh in
  ret nh.

(** [node.as<PLNHProtocol>()]: decode into a default-constructed value. *)
Definition as_PLNHProtocol (node : Node) : M PLNHProtocol :=
  decode_PLNHProtocol node new_protocol.

(** ** [YAML::convert<PLHostRecord>::decode] *)

Definition set_hostname (v : string) (nh : PLHostRecord) : PLHostRecord :=
  mkHostRecord v (protocols nh) (weight nh) (hash_string nh) (group_index nh)
    (host_index nh) (available nh).

Definition push_protocol (pr : PLNHProtocol) (nh : PLHostRecord) : PLHostRecord :=
  mkHostRecord (hostname nh) (protocols nh ++ [pr]) (weight nh) (hash_string nh)
    (group_index nh) (host_index nh) (available nh).

Definition set_weight (v : float) (nh : PLHostRecord) : PLHostRecord :=
  mkHostRecord (hostname nh) (protocols nh) v (hash_string nh) (group_index nh)
    (host_index nh) (available nh).

Definition set_hash_string (v : string) (nh : PLHostRecord) : PLHostRecord :=
  mkHostRecord (hostname nh) (protocols nh) (weight nh) v (group_index nh)
    (host_index nh) (available nh).

Definition set_indices (grp hst : Z) (nh : PLHostRecord) : PLHostRecord :=
  mkHostRecord (hostname nh) (protocols nh) (weight nh) (hash_string nh) grp hst
    (available nh).

Definition decode_PLHostRecord (node : Node) (nh : PLHostRecord) : M PLHostRecord :=
  (* check for YAML merge tag. *)
  merge <- lift (subscript node "<<") ;;
  let merge_tag_used := IsDefined merge in
  let nd := if merge_tag_used then merge else node in
  (* lookup the hostname *)
  host <- lift (subscript nd "host") ;;
  nh <- (if IsDefined host then ret (set_hostname (Scalar_of host) nh)
         else throw (invalid_argument "Invalid host definition, missing host name.")) ;;
  (* lookup the port numbers supported by this host. *)
  proto <- lift (subscript nd "protocol") ;;
  nh <- (if negb (IsSequence proto) then
           throw (invalid_argument
                    "Invalid host protocol definition, expected a sequence.")
         else
           for_each_acc (elements proto) nh
             (fun ii nh => pr <- as_PLNHProtocol ii ;; ret (push_protocol pr nh))) ;;
  (* get the host's weight *)
  nh <- (if merge_tag_used then
           weight <- lift (subscript node "weight") ;;
           w <- lift (as_float weight) ;;
           ret (set_weight w nh)
         else
           weight <- lift (subscript nd "weight") ;;
           if IsDefined weight then
             w <- lift (as_float weight) ;;
             ret (set_weight w nh)
           else
             log_line (Note_no_weight (hostname nh)) ;;
             ret (set_weight float_1_0 nh)) ;;
  (* get the host's optional hash_string *)
  hash <- lift (subscript nd "hash_string") ;;
  let nh := if IsDefined hash then set_hash_string (Scalar_of hash) nh else nh in
  ret nh.

(** [node.as<PLHostRecord>()]: decode into a default-constructed value. *)
Definition as_PLHostRecord (node : Node) : M PLHostRecord :=
  decode_PLHostRecord node new_host_record.

(** ** [PLNextHopSelectionStrategy::Init]

    One definition per commented block of the function, in source order. *)

Definition alternate_rings : string := "alternate_ring".
Definition exhaust_rings : string := "exhaust_ring".
Definition active_health_check : string := "active".
Definition passive_health_check : string := "passive".

Definition Init_scheme (n : Node) : M unit :=
  sch <- lift (subscript n "scheme") ;;
  when (IsDefined sch)
    (let scheme_val := Scalar_of sch in
     if (scheme_val =? "http")%string then update (set_scheme PL_NH_SCHEME_HTTP)
     else if (scheme_val =? "https")%string then update (set_scheme PL_NH_SCHEME_HTTPS)
     else
       update (set_scheme PL_NH_SCHEME_NONE) ;;
       log_named (Note_invalid_scheme scheme_val)).

(* go_direct config. *)
Definition Init_go_direct (n : Node) : M unit :=
  gd <- lift (subscript n "go_direct") ;;
  when (IsDefined gd) (v <- lift (as_bool gd) ;; update (set_go_direct v)).

(* parent_is_proxy config. *)
Definition Init_parent_is_proxy (n : Node) : M unit :=
  pp <- lift (subscript n "parent_is_proxy") ;;
  when (IsDefined pp) (v <- lift (as_bool pp) ;; update (set_parent_is_proxy v)).

(* ignore_self_detect *)
Definition Init_ignore_self_detect (n : Node) : M unit :=
  isd <- lift (subscript n "ignore_self_detect") ;;
  when (IsDefined isd)
    (v <- lift (as_bool isd) ;; update (set_ignore_self_detect v)).

Definition Init_ring_mode (failover_node : Node) : M unit :=
  rm <- lift (subscript failover_node "ring_mode") ;;
  when (IsDefined rm)
    (let ring_mode_val := Scalar_of rm in
     if (ring_mode_val =? alternate_rings)%string then
       update (set_ring_mode PL_NH_ALTERNATE_RING)
     else if (ring_mode_val =? exhaust_rings)%string then
       update (set_ring_mode PL_NH_EXHAUST_RING)
     else
       update (set_ring_mode PL_NH_ALTERNATE_RING) ;;
       log_named (Note_invalid_ring_mode ring_mode_val)).

(** A value stored in, or read as, an unsigned 32-bit integer. *)
Definition uint32 (z : Z) : Z := z mod 2 ^ 32.

(** [max_simple_retries] is a non-negative count that [responseIsRetryable]
    compares with an [unsigned int]: the [int] that [as<int>()] gives is
    stored converted to unsigned, so that -1 becomes 4294967295. *)
Definition Init_max_simple_retries (failover_node : Node) : M unit :=
  msr <- lift (subscript failover_node "max_simple_retries") ;;
  when (IsDefined msr)
    (v <- lift (as_int msr) ;; update (set_max_simple_retries (uint32 v))).

Definition add_resp_code (code : Z) : M unit :=
  update (fun s => set_resp_codes (codes_add code (resp_codes s)) s).

Definition Init_response_codes (failover_node : Node) : M unit :=
  (* connection failures are always failure and retryable (pending retries) *)
  add_resp_code STATUS_CONNECTION_FAILURE ;;
  rc <- lift (subscript failover_node "response_codes") ;;
  when (IsDefined rc)
    (let resp_codes_node := rc in
     if negb (IsSequence resp_codes_node) then log_named Error_response_codes
     else
       for_each (elements resp_codes_node)
         (fun k =>
            code <- lift (as_int k) ;;
            if (code >? 300) && (code <? 599) then add_resp_code code
            else log_named (Note_skipping_code code)) ;;
       update (fun s => set_resp_codes (codes_sort (resp_codes s)) s)).

Definition Init_health_check (failover_node : Node) : M unit :=
  hc <- lift (subscript failover_node "health_check") ;;
  when (IsDefined hc)
    (let health_check_node := hc in
     if negb (IsSequence health_check_node) then log_named Error_health_check
     else
       for_each (elements health_check_node)
         (fun it =>
            health_check <- lift (as_string it) ;;
            when (health_check =? active_health_check)%string
              (update (fun s =>
                 set_health_checks
                   (mkHealthChecks true (passive (health_checks s))) s)) ;;
            when (health_check =? passive_health_check)%string
              (update (fun s =>
                 set_health_checks
                   (mkHealthChecks (active (health_checks s)) true) s)))).

(* failover node. *)
Definition Init_failover (n : Node) : M unit :=
  fo <- lift (subscript n "failover") ;;
  when (IsDefined fo)
    (let failover_node := fo in
     Init_ring_mode failover_node ;;
     Init_max_simple_retries failover_node ;;
     Init_response_codes failover_node ;;
     Init_health_check failover_node).

(** The hosts of one group: decode, number, self-detect, collect. *)
Definition load_host (hosts_list : Node) (grp : nat) (hst : nat)
  (hosts_inner : list PLHostRecord) : M (list PLHostRecord) :=
  decoded <- as_PLHostRecord (at_index hosts_list hst) ;;
  let host_rec := set_indices (Z.of_nat grp) (Z.of_nat hst) decoded in
  when (TSHostnameIsSelf (hostname host_rec))
    (TSHostStatusSet
       (mkHostStatusSet (hostname host_rec) TS_HOST_STATUS_DOWN 0
          TS_HOST_STATUS_SELF_DETECT)) ;;
  update (fun s => set_num_parents (num_parents s + 1) s) ;;
  ret (hosts_inner ++ [host_rec]).

Definition load_group (groups_node : Node) (grp : nat) : M unit :=
  let hosts_list := at_index groups_node grp in
  (* a list of hosts is required. *)
  if negb (IsSequence hosts_list) then
    throw_named "Invalid hosts definition, expected a sequence, '"
                "' cannot be loaded."
  else
    (* loop through the hosts list. *)
    hosts_inner <- for_range_acc (length (elements hosts_list)) 0 []
                     (load_host hosts_list grp) ;;
    update (fun s => set_passive_health (passive_health s ++ [hosts_inner]) s) ;;
    update (fun s => set_host_groups (host_groups s ++ [hosts_inner]) s).

(** [grp_size] is a [uint32_t] and so is the [groups] field the loop counter
    is compared with: the size of the sequence is reduced modulo 2^32. *)
(* parse and load the host data *)
Definition Init_groups (n : Node) : M unit :=
  g <- lift (subscript n "groups") ;;
  when (IsDefined g)
    (let groups_node := g in
     (* a groups list is required. *)
     if negb (IsSequence groups_node) then
       throw_named "Invalid groups definition, expected a sequence, '"
                   "' cannot be loaded."
     else
       let grp_size := uint32 (Z.of_nat (length (elements groups_node))) in
       (* [host_groups.reserve(groups)] below changes nothing observable. *)
       (if grp_size >? PL_NH_MAX_GROUP_RINGS then
          log_named Note_groups_exceed ;;
          update (set_groups PL_NH_MAX_GROUP_RINGS)
        else
          update (set_groups (uint32 (Z.of_nat (length (elements groups_node)))))) ;;
       (* loop through the groups *)
       s <- get_this ;;
       for_range (Z.to_nat (groups s)) 0 (load_group groups_node)).

Definition Init_body (n : Node) : M unit :=
  Init_scheme n ;;
  Init_go_direct n ;;
  Init_parent_is_proxy n ;;
  Init_ignore_self_detect n ;;
  Init_failover n ;;
  Init_groups n.

(** The [try] block and its handler: [true] when the body returns, [false]
    (after a note) when anything it calls throws. *)
Definition Init (n : Node) (st : State) : bool * State :=
  match Init_body n st with
  | (Returned _, st') => (true, st')
  | (Thrown ex, st') =>
      (false, snd (log_named (fun name => Note_error_parsing name ex) st'))
  end.

(** A strategy is constructed with its name and initialised once, before any
    host status call or log line of its own. *)
Definition initial_state (name : string) : State :=
  mkState (new_strategy name) [] [].

Definition load (name : string) (n : Node) : bool * State :=
  Init n (initial_state name).

(** ** The queries *)

(** [nextHopExists]: the groups [0 .. groups-1] in order, the hosts of each in
    order, [true] at the first available one.  [None] stands for indexing
    [host_groups] past its end, which C++ leaves undefined. *)
Fixpoint nextHopExists_from (count : nat) (gg : nat)
  (s : PLNextHopSelectionStrategy) : option bool :=
  match count with
  | O => Some false
  | S count' =>
      match nth_error (host_groups s) gg with
      | None => None
      | Some hosts =>
          if existsb available hosts then Some true
          else nextHopExists_from count' (S gg) s
      end
  end.

Definition nextHopExists (s : PLNextHopSelectionStrategy) : option bool :=
  nextHopExists_from (Z.to_nat (groups s)) 0 s.

Definition codeIsFailure (s : PLNextHopSelectionStrategy) (response_code : Z) : bool :=
  codes_contains response_code (resp_codes s).

(** [current_retry_attempts] is an [unsigned int] and both comparisons are
    made in unsigned arithmetic. *)
Definition responseIsRetryable (s : PLNextHopSelectionStrategy)
  (current_retry_attempts : Z) (response_code : Z) : bool :=
  codeIsFailure s response_code
  && (uint32 current_retry_attempts <? uint32 (max_simple_retries s))
  && (uint32 current_retry_attempts <? uint32 (num_parents s)).

Definition onFailureMarkParentDown (response_code : Z) : bool :=
  (response_code >=? 500) && (response_code <=? 599).

Definition goDirect (s : PLNextHopSelectionStrategy) : bool := go_direct s.

Definition parentIsProxy (s : PLNextHopSelectionStrategy) : bool := parent_is_proxy s.

End Operations.

(** ** A concrete platform

    Decimal conversions, a host named [localhost] that is the local process,
    a cap of 32 groups and 0 for the connection-failure status: enough to run
    the definitions on configurations. *)

Definition digit_of (c : Ascii.ascii) : option Z :=
  let n := Z.of_nat (Ascii.nat_of_ascii c) in
  if (48 <=? n) && (n <=? 57) then Some (n - 48) else None.

Fixpoint digits_value (s : string) (acc : Z) : option Z :=
  match s with
  | EmptyString => Some acc
  | String c rest =>
      match digit_of c with
      | Some d => digits_value rest (10 * acc + d)
      | None => None
      end
  end.

Definition decimal_int (s : string) : option Z :=
  match s with
  | EmptyString => None
  | String "-"%char EmptyString => None
  | String "-"%char rest => option_map Z.opp (digits_value rest 0)
  | _ => digits_value s 0
  end.

Definition decimal_bool (s : string) : option bool :=
  if (s =? "true")%string then Some true
  else if (s =? "false")%string then Some false
  else None.

(** Weights in thousandths: ["1.5"] is 1500. *)
Fixpoint split_point (s : string) : string * option string :=
  match s with
  | EmptyString => (EmptyString, None)
  | String "."%char rest => (EmptyString, Some rest)
  | String c rest =>
      let (a, b) := split_point rest in (String c a, b)
  end.

Definition decimal_milli (s : string) : option Z :=
  match split_point s with
  | (a, None) => option_map (Z.mul 1000) (decimal_int a)
  | (a, Some b) =>
      match decimal_int a, digits_value (substring 0 3 (String.append b "000")) 0 with
      | Some i, Some f => Some (1000 * i + (if i <? 0 then - f else f))
      | _, _ => None
      end
  end.

Definition demo : Platform :=
  {| float := Z;
     float_1_0 := 1000;
     float_default := 0;
     scalar_as_bool := decimal_bool;
     scalar_as_int := decimal_int;
     scalar_as_float := decimal_milli;
     null_as_string := Some "null";
     TSHostnameIsSelf := fun h => (h =? "localhost")%string;
     PL_NH_MAX_GROUP_RINGS := 32;
     max_group_rings_range := ltac:(lia);
     STATUS_CONNECTION_FAILURE := 0;
     connection_failure_not_http := ltac:(lia) |}.

(** [- host: name, protocol: [{scheme: http, port: 80}]] with extra keys. *)
Definition host_node (name : string) (extra : list (string * Node)) : Node :=
  Map ([("host", Scalar name);
        ("protocol", Sequence [Map [("scheme", Scalar "http"); ("port", Scalar "80")]])]
       ++ extra).

(** ** Configurations to run on the concrete platform *)

Definition cfg_empty : Node := Map [].

Definition cfg_groups_scalar : Node := Map [("groups", Scalar "p1.example.com")].

Definition cfg_bogus_ring_mode : Node :=
  Map [("failover", Map [("ring_mode", Scalar "bogus")])].

Definition cfg_codes : Node :=
  Map [("failover",
        Map [("response_codes",
              Sequence [Scalar "599"; Scalar "503"; Scalar "300"; Scalar "404"])])].

Definition cfg_self_ignored : Node :=
  Map [("ignore_self_detect", Scalar "true");
       ("groups", Sequence [Sequence [host_node "localhost" []; host_node "p2" []]])].

Definition cfg_two_groups : Node :=
  Map [("groups", Sequence [Sequence [host_node "p1" []]; Sequence [host_node "p2" []]])].

Definition merged_host : Node :=
  Map [("<<", Map [("host", Scalar "p1"); ("protocol", Sequence [])])].

Definition loaded_two_groups : @PLNextHopSelectionStrategy demo :=
  this (snd (@load demo "s" cfg_two_groups)).

(** ** Observations of a state *)

Section Observations.
Context {P : Platform}.

(** [keeps f m]: running [m], whether it returns or throws, leaves the
    observation [f] of the state as it was. *)
Definition keeps {X A} (f : State -> X) (m : M A) : Prop :=
  forall st, f (snd (m st)) = f st.

(** [stable I m]: a property [I] of the state that holds before [m] holds
    after it, whether [m] returns or throws. *)
Definition stable {A} (I : State -> Prop) (m : M A) : Prop :=
  forall st, I st -> I (snd (m st)).

Definition codes_of (st : State) : PLResponseCodes := resp_codes (this st).
Definition host_groups_of (st : State) := host_groups (this st).
Definition groups_of (st : State) : Z := groups (this st).
Definition ring_mode_of (st : State) : PLNHRingMode := ring_mode (this st).
Definition name_of (st : State) : string := strategy_name (this st).
Definition host_status_of (st : State) : list HostStatusSet := host_status st.

(** The codes of the "Skipping invalid response code" notes, in log order. *)
Fixpoint skipped_codes (l : list LogLine) : list Z :=
  match l with
  | [] => []
  | Note_skipping_code code _ :: rest => code :: skipped_codes rest
  | _ :: rest => skipped_codes rest
  end.

Definition skipped_of (st : State) : list Z := skipped_codes (logged st).

(** The connection-failure status is among the response codes. *)
Definition has_connection_failure (st : State) : Prop :=
  In STATUS_CONNECTION_FAILURE (codes_of st).

(** The call that marks [host] down because it is the local process. *)
Definition self_detect_down (host : string) : HostStatusSet :=
  mkHostStatusSet host TS_HOST_STATUS_DOWN 0 TS_HOST_STATUS_SELF_DETECT.

(** The mark-down calls due for a list of loaded hosts. *)
Definition self_detect_calls (hosts : list PLHostRecord) : list HostStatusSet :=
  map self_detect_down (filter TSHostnameIsSelf (map hostname hosts)).

End Observations.

(** ** Further observations, for the properties beyond the claims *)

Section FurtherObservations.
Context {P : Platform}.

Definition num_parents_of (st : State) : Z := num_parents (this st).
Definition passive_health_of (st : State) := passive_health (this st).
Definition scheme_of (st : State) : PLNHSchemeType := scheme (this st).
Definition health_checks_of (st : State) : PLNHHealthChecks := health_checks (this st).
Definition max_simple_retries_of (st : State) : Z := max_simple_retries (this st).
Definition flags_of (st : State) : bool * bool * bool :=
  (go_direct (this st), parent_is_proxy (this st), ignore_self_detect (this st)).

(** The scheme a text names, as both [Init] and the protocol decoder read
    it. *)
Definition scheme_of_text (text : string) : PLNHSchemeType :=
  if (text =? "http")%string then PL_NH_SCHEME_HTTP
  else if (text =? "https")%string then PL_NH_SCHEME_HTTPS
  else PL_NH_SCHEME_NONE.

(** A status a loaded strategy may count as a failure. *)
Definition retry_code (c : Z) : Prop :=
  c = STATUS_CONNECTION_FAILURE \/ 300 < c < 599.

Definition codes_within (st : State) : Prop :=
  forall c, In c (codes_of st) -> retry_code c.

(** A mark-down call for a host that is the local process. *)
Definition self_detect_call (c : HostStatusSet) : Prop :=
  exists host, c = self_detect_down host /\ TSHostnameIsSelf host = true.

(** The calls on the host status store since [base]: only such calls, and
    only added. *)
Definition calls_since (base : list HostStatusSet) (st : State) : Prop :=
  exists calls, host_status st = base ++ calls /\ Forall self_detect_call calls.

(** The record at [host_groups[g][h]] is the decoding of the entry
    [groups_node[g][h]] with its two indices set. *)
Definition loaded_from (groups_node : Node) (g h : nat) (rec : PLHostRecord) : Prop :=
  exists st0 decoded,
    fst (as_PLHostRecord (at_index (at_index groups_node g) h) st0) = Returned decoded
    /\ rec = set_indices (Z.of_nat g) (Z.of_nat h) decoded.

(** The node the host decoder reads [host], [protocol] and [hash_string]
    from: what the merge tag holds when there is one, the entry itself
    otherwise. *)
Definition merged_or_self (node : Node) : Node :=
  match subscript node "<<" with
  | Returned merge => if IsDefined merge then merge else node
  | Thrown _ => node
  end.

(** A host entry that is decoded from every state. *)
Definition decodes (node : Node) : Prop :=
  forall st, exists nh st', as_PLHostRecord node st = (Returned nh, st').

(** The codes [l] added one by one to [codes]. *)
Definition codes_add_all (l : list Z) (codes : PLResponseCodes) : PLResponseCodes :=
  fold_left (fun acc code => codes_add code acc) l codes.

(** A log line other than the note of a rejected strategy. *)
Definition no_rejection_note (l : LogLine) : Prop :=
  forall name ex, l <> Note_error_parsing name ex.

(** The lines logged since [base]: only added, and no rejection note among
    them. *)
Definition lines_since (base : list LogLine) (st : State) : Prop :=
  exists lines, logged st = base ++ lines /\ Forall no_rejection_note lines.

(** A computation that returns from no state. *)
Definition never_returns {A} (m : M A) : Prop :=
  forall st a st', m st <> (Returned a, st').

End FurtherObservations.

Definition cfg_codes_scalar : Node :=
  Map [("failover", Map [("response_codes", Scalar "503")])].

Definition cfg_codes_text : Node :=
  Map [("failover", Map [("response_codes", Sequence [Scalar "503"; Scalar "five"])])].

Definition cfg_unknown_keys : Node :=
  Map [("name", Scalar "s"); ("colour", Scalar "blue")].

Definition cfg_settings : Node :=
  Map [("scheme", Scalar "gopher"); ("go_direct", Scalar "false");
       ("parent_is_proxy", Scalar "false"); ("ignore_self_detect", Scalar "true");
       ("failover",
        Map [("ring_mode", Scalar "exhaust_ring"); ("max_simple_retries", Scalar "3");
             ("response_codes", Sequence [Scalar "503"; Scalar "404"; Scalar "503"]);
             ("health_check", Sequence [Scalar "passive"; Scalar "other"])]);
       ("groups",
        Sequence [Sequence [host_node "p1" []; host_node "localhost" []];
                  Sequence [host_node "p3" [("weight", Scalar "0.5")]]])].

Definition cfg_bad_flag : Node := Map [("go_direct", Scalar "maybe")].

Definition cfg_negative_retries : Node :=
  Map [("failover",
        Map [("max_simple_retries", Scalar "-1");
             ("response_codes", Sequence [Scalar "503"])]);
       ("groups", Sequence [Sequence [host_node "p1" []]])].

(** One group more than the cap of the concrete platform: 32 groups of one
    host each, the host of group [g] with a hash string of its own, and a
    33rd entry that is no group at all. *)
Definition numbered_host (g : nat) : Node :=
  Map [("host", Scalar "p");
       ("protocol",
        Sequence [Map [("scheme", Scalar "http")]]);
       ("hash_string", Scalar (String (ascii_of_nat (65 + g)) EmptyString))].

Definition groups_over_cap : list Node :=
  map (fun g => Sequence [numbered_host g]) (seq 0 32) ++ [Scalar "junk"].

Definition cfg_over_cap : Node := Map [("groups", Sequence groups_over_cap)].

Definition cfg_bad_retries : Node :=
  Map [("failover", Map [("max_simple_retries", Scalar "many")])].

Definition cfg_bad_group : Node :=
  Map [("groups", Sequence [Sequence [host_node "p1" []]; Scalar "p2"])].

Definition cfg_bad_host : Node :=
  Map [("groups",
        Sequence [Sequence [host_node "localhost" [];
                            Map [("protocol", Sequence [])]]])].

Definition host_merged_weighted : Node :=
  Map [("<<", Map [("host", Scalar "p1"); ("protocol", Sequence []);
                   ("weight", Scalar "2.0")]);
       ("weight", Scalar "0.5")].

Definition host_without_name : Node := Map [("protocol", Sequence [])].

Definition host_without_protocol : Node := Map [("host", Scalar "p1")].

Definition host_bad_weight : Node :=
  Map [("host", Scalar "p1"); ("protocol", Sequence []); ("weight", Scalar "heavy")].

Definition protocol_bad_port : Node :=
  Map [("scheme", Scalar "https"); ("port", Scalar "https")].

(** ** Reasoning about runs *)

Section Runs.
Context {P : Platform}.

(** A computation that returns did so through each of its binds. *)
Lemma bind_returned {A B} (m : M A) (k : A -> M B) st b st' :
  bind m k st = (Returned b, st') ->
  exists a st1, m st = (Returned a, st1) /\ k a st1 = (Returned b, st').
Proof.
  unfold bind. destruct (m st) as [[a|e] st1]; intros H.
  - exists a, st1. split; [reflexivity | exact H].
  - discriminate H.
Qed.

Lemma bind_thrown_left {A B} (m : M A) (k : A -> M B) st e st1 :
  m st = (Thrown e, st1) -> bind m k st = (Thrown e, st1).
Proof. unfold bind. intros ->. reflexivity. Qed.

Lemma bind_step {A B} (m : M A) (k : A -> M B) st a st1 :
  m st = (Returned a, st1) -> bind m k st = k a st1.
Proof. unfold bind. intros ->. reflexivity. Qed.

Lemma bind_lift_returned {A B} (a : A) (k : A -> M B) :
  bind (lift (Returned a)) k = k a.
Proof. reflexivity. Qed.

Lemma lift_returned {A} (o : outcome A) st a st' :
  lift o st = (Returned a, st') -> o = Returned a /\ st' = st.
Proof. unfold lift. intros H. inversion H. split; reflexivity. Qed.

Section Keeps.
Context {X : Type} (f : State -> X).

Lemma keeps_bind {A B} (m : M A) (k : A -> M B) :
  keeps f m -> (forall a, keeps f (k a)) -> keeps f (bind m k).
Proof.
  intros Hm Hk st. unfold bind. specialize (Hm st).
  destruct (m st) as [[a|e] st1]; cbn in *.
  - rewrite Hk. exact Hm.
  - exact Hm.
Qed.

Lemma keeps_when (b : bool) (m : M unit) :
  keeps f m -> keeps f (when b m).
Proof. intros Hm. destruct b; [exact Hm | intros st; reflexivity]. Qed.

Lemma keeps_for_each {A} (l : list A) (body : A -> M unit) :
  (forall k, keeps f (body k)) -> keeps f (for_each l body).
Proof.
  intros Hb. induction l as [|k rest IH]; cbn.
  - intros st; reflexivity.
  - apply keeps_bind; [apply Hb | intros _; exact IH].
Qed.

Lemma keeps_for_each_acc {A B} (l : list A) (body : A -> B -> M B) :
  (forall k acc, keeps f (body k acc)) ->
  forall acc, keeps f (for_each_acc l acc body).
Proof.
  intros Hb. induction l as [|k rest IH]; intros acc; cbn.
  - intros st; reflexivity.
  - apply keeps_bind; [apply Hb | intros acc'; apply IH].
Qed.

Lemma keeps_for_range (body : nat -> M unit) :
  (forall i, keeps f (body i)) ->
  forall count i, keeps f (for_range count i body).
Proof.
  intros Hb. induction count as [|count IH]; intros i; cbn.
  - intros st; reflexivity.
  - apply keeps_bind; [apply Hb | intros _; apply IH].
Qed.

Lemma keeps_for_range_acc {B} (body : nat -> B -> M B) :
  (forall i acc, keeps f (body i acc)) ->
  forall count i acc, keeps f (for_range_acc count i acc body).
Proof.
  intros Hb. induction count as [|count IH]; intros i acc; cbn.
  - intros st; reflexivity.
  - apply keeps_bind; [apply Hb | intros acc'; apply IH].
Qed.

Lemma keeps_run {A} (m : M A) st o st' :
  keeps f m -> m st = (o, st') -> f st' = f st.
Proof. intros Hk E. specialize (Hk st). rewrite E in Hk. exact Hk. Qed.

End Keeps.

Section Stable.
Context (I : State -> Prop).

Lemma stable_bind {A B} (m : M A) (k : A -> M B) :
  stable I m -> (forall a, stable I (k a)) -> stable I (bind m k).
Proof.
  intros Hm Hk st HI. unfold bind. specialize (Hm st HI).
  destruct (m st) as [[a|e] st1]; cbn in *.
  - apply Hk. exact Hm.
  - exact Hm.
Qed.

Lemma stable_when (b : bool) (m : M unit) :
  stable I m -> stable I (when b m).
Proof. intros Hm. destruct b; [exact Hm | intros st HI; exact HI]. Qed.

Lemma stable_for_each {A} (l : list A) (body : A -> M unit) :
  (forall k, stable I (body k)) -> stable I (for_each l body).
Proof.
  intros Hb. induction l as [|k rest IH]; cbn.
  - intros st HI; exact HI.
  - apply stable_bind; [apply Hb | intros _; exact IH].
Qed.

Lemma stable_run {A} (m : M A) st o st' :
  stable I m -> m st = (o, st') -> I st -> I st'.
Proof. intros Hs E HI. specialize (Hs st HI). rewrite E in Hs. exact Hs. Qed.

End Stable.
End Runs.

Create HintDb init_blocks.
#[export] Hint Unfold Init_body Init_scheme Init_go_direct Init_parent_is_proxy
  Init_ignore_self_detect Init_failover Init_ring_mode Init_max_simple_retries
  Init_response_codes Init_health_check Init_groups load_group load_host
  as_PLHostRecord decode_PLHostRecord as_PLNHProtocol decode_PLNHProtocol
  add_resp_code : init_blocks.

(** Splits a [keeps] goal along the structure of the computation and closes
    the leaves that do not touch the observation. *)
Lemma skipped_codes_app l1 l2 :
  skipped_codes (l1 ++ l2) = skipped_codes l1 ++ skipped_codes l2.
Proof.
  induction l1 as [|x l1 IH]; [reflexivity | ].
  destruct x; cbn; rewrite IH; reflexivity.
Qed.

Ltac keeps_leaf :=
  intros ?;
  first [ reflexivity
        | cbv [skipped_of log_named log_line snd logged];
          rewrite skipped_codes_app; apply app_nil_r ].

Ltac keeps_step :=
  lazymatch goal with
  | |- keeps _ (bind _ _) => apply keeps_bind; [ | intros ? ]
  | |- keeps _ (when _ _) => apply keeps_when
  | |- keeps _ (for_each _ _) => apply keeps_for_each; intros ?
  | |- keeps _ (for_each_acc _ _ _) => apply keeps_for_each_acc; intros ? ?
  | |- keeps _ (for_range _ _ _) => apply keeps_for_range; intros ?
  | |- keeps _ (for_range_acc _ _ _ _) => apply keeps_for_range_acc; intros ? ?
  | |- keeps _ (if ?b then _ else _) => destruct b
  | |- keeps _ (let _ := _ in _) => cbv zeta
  | |- keeps _ _ => first [ keeps_leaf | progress autounfold with init_blocks ]
  end.

Ltac frame := repeat keeps_step.

(** Takes the first bind of a run that returned apart. *)
Ltac ran H a st1 H1 :=
  apply bind_returned in H; destruct H as (a & st1 & H1 & H).

(** Rewrites the observation [f] of the state a run ended in into that of the
    state it started from, when the run keeps [f]. *)
Ltac kept f E :=
  match type of E with
  | ?m ?st = _ =>
      let K := fresh "K" in
      assert (K : keeps f m) by frame;
      rewrite (keeps_run f m _ _ _ K E); clear K
  end.

Section InitFacts.
Context {P : Platform}.

(** [Init] never renames the strategy. *)
Lemma Init_body_keeps_name n : keeps name_of (Init_body n).
Proof. frame. Qed.

(** Loading the groups does not touch the response codes or the ring mode. *)
Lemma Init_groups_keeps_codes n : keeps codes_of (Init_groups n).
Proof. frame. Qed.

Lemma Init_groups_keeps_ring_mode n : keeps ring_mode_of (Init_groups n).
Proof. frame. Qed.

Lemma Init_groups_keeps_skipped n : keeps skipped_of (Init_groups n).
Proof. frame. Qed.

Lemma Init_health_check_keeps_codes fo : keeps codes_of (Init_health_check fo).
Proof. frame. Qed.

Lemma Init_health_check_keeps_skipped fo : keeps skipped_of (Init_health_check fo).
Proof. frame. Qed.

(** The sort of the response codes keeps what is in them. *)
Lemma insert_sorted_In c x l : In x (insert_sorted c l) <-> x = c \/ In x l.
Proof.
  induction l as [|y l IH]; cbn.
  - intuition auto.
  - destruct (c <=? y); cbn; [ intuition auto | rewrite IH; intuition auto ].
Qed.

Lemma codes_sort_In x l : In x (codes_sort l) <-> In x l.
Proof.
  induction l as [|y l IH]; cbn; [ reflexivity | ].
  rewrite insert_sorted_In, IH. intuition auto.
Qed.

Lemma codes_contains_In c l : codes_contains c l = true <-> In c l.
Proof.
  unfold codes_contains. rewrite existsb_exists. split.
  - intros (x & Hx & E). apply Z.eqb_eq in E. subst x. exact Hx.
  - intros H. exists c. split; [exact H | apply Z.eqb_refl].
Qed.

(** Adding a code adds it to what is contained, and nothing else. *)
Lemma codes_add_In x c l : In x (codes_add c l) <-> x = c \/ In x l.
Proof.
  unfold codes_add. destruct (codes_contains c l) eqn:Hc.
  - apply codes_contains_In in Hc. split; [ right; assumption | ].
    intros [-> | H]; assumption.
  - rewrite in_app_iff. cbn. intuition auto.
Qed.

Lemma codes_add_all_In x l codes :
  In x (codes_add_all l codes) <-> In x l \/ In x codes.
Proof.
  unfold codes_add_all. revert codes.
  induction l as [|c l IH]; intros codes; cbn.
  - intuition auto.
  - rewrite IH, codes_add_In. intuition auto.
Qed.

(** Once the connection-failure status is among the response codes, the rest
    of the [response_codes] block leaves it there: codes are only added, and
    the sort keeps them. *)
Lemma response_codes_stable (rc : Node) :
  stable has_connection_failure
    (when (IsDefined rc)
       (if negb (IsSequence rc) then log_named Error_response_codes
        else
          bind
            (for_each (elements rc)
               (fun k =>
                  bind (lift (as_int k))
                    (fun code =>
                       if (code >? 300) && (code <? 599) then add_resp_code code
                       else log_named (Note_skipping_code code))))
            (fun _ => update (fun s => set_resp_codes (codes_sort (resp_codes s)) s)))).
Proof.
  apply stable_when. destruct (negb (IsSequence rc)).
  - intros st H; exact H.
  - apply stable_bind.
    + apply stable_for_each. intros k. apply stable_bind.
      * intros st H; exact H.
      * intros code. destruct ((code >? 300) && (code <? 599)).
        -- intros st H. unfold has_connection_failure, codes_of in *. cbn.
           apply codes_add_In. right. exact H.
        -- intros st H; exact H.
    + intros _ st H. unfold has_connection_failure, codes_of in *. cbn.
      apply codes_sort_In. exact H.
Qed.

(** The loop over [response_codes] when every entry converts to an integer:
    the codes strictly between 300 and 599 are added in order, one note is
    logged for each of the others, and nothing is thrown. *)
Lemma response_codes_loop ks codes :
  Forall2 (fun k c => as_int k = Returned c) ks codes ->
  forall st,
    for_each ks
      (fun k =>
         bind (lift (as_int k))
           (fun code =>
              if (code >? 300) && (code <? 599) then add_resp_code code
              else log_named (Note_skipping_code code))) st =
    (Returned tt,
     mkState
       (set_resp_codes
          (codes_add_all (filter (fun code => (code >? 300) && (code <? 599)) codes)
             (resp_codes (this st)))
          (this st))
       (host_status st)
       (logged st
        ++ map (fun code => Note_skipping_code code (strategy_name (this st)))
             (filter (fun code => negb ((code >? 300) && (code <? 599))) codes))).
Proof.
  induction 1 as [|k c ks codes Hk _ IH]; intros st.
  - cbn. rewrite !app_nil_r. destruct st as [[] ? ?]. reflexivity.
  - cbn [for_each]. rewrite Hk, bind_lift_returned.
    cbn [filter]. destruct ((c >? 300) && (c <? 599)); cbn [negb].
    + erewrite bind_step by reflexivity. rewrite IH. reflexivity.
    + erewrite bind_step by reflexivity. rewrite IH. cbn.
      rewrite <- app_assoc. reflexivity.
Qed.

(** Nor does what follows the [ring_mode] block inside [failover]. *)
Lemma Init_after_ring_mode_keeps fo :
  keeps ring_mode_of
    (bind (Init_max_simple_retries fo)
       (fun _ => bind (Init_response_codes fo) (fun _ => Init_health_check fo))).
Proof. frame. Qed.

End InitFacts.

Section InitRuns.
Context {P : Platform}.

(** What [Init] leaves behind is what its body leaves behind, for every
    observation that logging does not change. *)
Lemma Init_keeps {X} (f : State -> X) n :
  (forall l, keeps f (log_line l)) ->
  keeps f (Init_body n) ->
  forall st, f (snd (Init n st)) = f st.
Proof.
  intros Hlog Hbody st. unfold Init. specialize (Hbody st).
  destruct (Init_body n st) as [[[]|ex] st1]; cbn in *.
  - exact Hbody.
  - exact (eq_trans (Hlog (Note_error_parsing (strategy_name (this st1)) ex) st1) Hbody).
Qed.

Lemma Init_true n st :
  fst (Init n st) = true ->
  Init_body n st = (Returned tt, snd (Init n st)).
Proof.
  unfold Init. destruct (Init_body n st) as [[[]|ex] st1]; cbn.
  - reflexivity.
  - discriminate.
Qed.

Lemma Init_returned n st st' :
  Init n st = (true, st') -> Init_body n st = (Returned tt, st').
Proof.
  intros H. pose proof (Init_true n st) as Ht. rewrite H in Ht. exact (Ht eq_refl).
Qed.

(** Without a [failover] node the whole block is skipped. *)
Lemma Init_failover_absent n :
  subscript n "failover" = Returned Undefined ->
  forall st, Init_failover n st = (Returned tt, st).
Proof. intros H st. unfold Init_failover. rewrite H. reflexivity. Qed.

Lemma Init_without_failover_keeps_codes n :
  subscript n "failover" = Returned Undefined ->
  keeps codes_of (Init_body n).
Proof.
  intros H. unfold Init_body.
  do 4 (apply keeps_bind; [frame | intros _]).
  apply keeps_bind; [ | intros _; frame ].
  intros st. rewrite (Init_failover_absent n H). reflexivity.
Qed.

(** A [groups] node that is not a sequence makes the block throw at once. *)
Lemma Init_groups_not_a_sequence n g :
  subscript n "groups" = Returned g ->
  IsDefined g = true -> IsSequence g = false ->
  forall st, exists ex, Init_groups n st = (Thrown ex, st).
Proof.
  intros H Hd Hs st. unfold Init_groups. rewrite H, bind_lift_returned, Hd.
  cbn. rewrite Hs. cbn. eexists. reflexivity.
Qed.

(** The [response_codes] block on a sequence of integers. *)
Lemma Init_response_codes_run fo ks codes st :
  subscript fo "response_codes" = Returned (Sequence ks) ->
  Forall2 (fun k c => as_int k = Returned c) ks codes ->
  Init_response_codes fo st =
    (Returned tt,
     mkState
       (set_resp_codes
          (codes_sort
             (codes_add_all
                (filter (fun code => (code >? 300) && (code <? 599)) codes)
                (codes_add STATUS_CONNECTION_FAILURE (resp_codes (this st)))))
          (this st))
       (host_status st)
       (logged st
        ++ map (fun code => Note_skipping_code code (strategy_name (this st)))
             (filter (fun code => negb ((code >? 300) && (code <? 599))) codes))).
Proof.
  intros Hrc Hks. unfold Init_response_codes.
  erewrite bind_step by reflexivity.
  rewrite Hrc, bind_lift_returned. cbv [IsDefined IsSequence negb when elements].
  cbv zeta. erewrite bind_step by (apply (response_codes_loop ks codes Hks)).
  reflexivity.
Qed.

Lemma skipped_codes_notes name codes :
  skipped_codes (map (fun code => Note_skipping_code code name) codes) = codes.
Proof. induction codes as [|c l IH]; cbn; [ | rewrite IH ]; reflexivity. Qed.

(** The four scalar blocks that come before [failover]. *)
Lemma Init_scalars_keep {X} (f : State -> X) n s0 s4 u1 u2 u3 u4 s1 s2 s3 :
  keeps f (Init_scheme n) -> keeps f (Init_go_direct n) ->
  keeps f (Init_parent_is_proxy n) -> keeps f (Init_ignore_self_detect n) ->
  Init_scheme n s0 = (Returned u1, s1) ->
  Init_go_direct n s1 = (Returned u2, s2) ->
  Init_parent_is_proxy n s2 = (Returned u3, s3) ->
  Init_ignore_self_detect n s3 = (Returned u4, s4) ->
  f s4 = f s0.
Proof.
  intros K1 K2 K3 K4 E1 E2 E3 E4.
  rewrite (keeps_run f _ _ _ _ K4 E4), (keeps_run f _ _ _ _ K3 E3),
    (keeps_run f _ _ _ _ K2 E2). exact (keeps_run f _ _ _ _ K1 E1).
Qed.

(** ** Loading the groups *)

Lemma self_detect_calls_app a b :
  self_detect_calls (a ++ b) = self_detect_calls a ++ self_detect_calls b.
Proof. unfold self_detect_calls. rewrite map_app, filter_app, map_app. reflexivity. Qed.

Lemma as_PLHostRecord_keeps_status node : keeps host_status_of (as_PLHostRecord node).
Proof. frame. Qed.

Lemma as_PLHostRecord_keeps_this node : keeps this (as_PLHostRecord node).
Proof. frame. Qed.

(** One host of a group: the record joins the group, with one mark-down call
    when its name is the local process, and the strategy keeps its groups. *)
Lemma load_host_returned hosts_list grp hst acc st acc' st' :
  load_host hosts_list grp hst acc st = (Returned acc', st') ->
  exists rec,
    acc' = acc ++ [rec]
    /\ host_status st' = host_status st ++ self_detect_calls [rec]
    /\ host_groups_of st' = host_groups_of st
    /\ groups_of st' = groups_of st.
Proof.
  intros E. unfold load_host in E. ran E decoded s1 E1. cbv zeta in E.
  pose proof (keeps_run _ _ _ _ _ (as_PLHostRecord_keeps_status _) E1) as Hs.
  pose proof (keeps_run _ _ _ _ _ (as_PLHostRecord_keeps_this _) E1) as Ht.
  unfold host_status_of in Hs.
  exists (set_indices (Z.of_nat grp) (Z.of_nat hst) decoded).
  unfold self_detect_calls. cbn [map filter].
  destruct (TSHostnameIsSelf
              (hostname (set_indices (Z.of_nat grp) (Z.of_nat hst) decoded)));
    cbn in E; injection E as <- <-; unfold host_groups_of, groups_of; cbn;
    rewrite Hs, Ht, ?app_nil_r; repeat split; reflexivity.
Qed.

Lemma load_hosts_returned hosts_list grp count :
  forall hst acc st acc' st',
    for_range_acc count hst acc (load_host hosts_list grp) st = (Returned acc', st') ->
    exists new,
      acc' = acc ++ new
      /\ host_status st' = host_status st ++ self_detect_calls new
      /\ host_groups_of st' = host_groups_of st
      /\ groups_of st' = groups_of st.
Proof.
  induction count as [|count IH]; intros hst acc st acc' st' E; cbn in E.
  - injection E as <- <-. exists []. rewrite !app_nil_r. repeat split; reflexivity.
  - ran E acc1 s1 E1.
    destruct (load_host_returned _ _ _ _ _ _ _ E1) as (rec & -> & Hs1 & Hg1 & Hn1).
    destruct (IH _ _ _ _ _ E) as (new & -> & Hs & Hg & Hn).
    exists ([rec] ++ new).
    rewrite self_detect_calls_app, Hs, Hs1, Hg, Hg1, Hn, Hn1, <- !app_assoc.
    repeat split; reflexivity.
Qed.

(** One group: its hosts become one more entry of [host_groups]. *)
Lemma load_group_returned groups_node grp st st' :
  load_group groups_node grp st = (Returned tt, st') ->
  exists hosts_inner,
    host_groups_of st' = host_groups_of st ++ [hosts_inner]
    /\ host_status st' = host_status st ++ self_detect_calls hosts_inner
    /\ groups_of st' = groups_of st.
Proof.
  intros E. unfold load_group in E. cbv zeta in E.
  destruct (IsSequence (at_index groups_node grp)); cbn [negb] in E;
    [ | discriminate E ].
  ran E hosts_inner s1 E1.
  destruct (load_hosts_returned _ _ _ _ _ _ _ _ E1) as (new & -> & Hs & Hg & Hn).
  cbn in E. injection E as <-. exists new.
  unfold host_groups_of, groups_of in *. cbn. rewrite Hs, Hg, Hn.
  repeat split; reflexivity.
Qed.

Lemma load_groups_returned groups_node count :
  forall grp st st',
    for_range count grp (load_group groups_node) st = (Returned tt, st') ->
    exists new,
      length new = count
      /\ host_groups_of st' = host_groups_of st ++ new
      /\ host_status st' = host_status st ++ self_detect_calls (concat new)
      /\ groups_of st' = groups_of st.
Proof.
  induction count as [|count IH]; intros grp st st' E; cbn in E.
  - injection E as <-. exists []. cbn. rewrite !app_nil_r. repeat split; reflexivity.
  - ran E u s1 E1. destruct u.
    destruct (load_group_returned _ _ _ _ E1) as (g & Hg1 & Hs1 & Hn1).
    destruct (IH _ _ _ E) as (new & Hlen & Hg & Hs & Hn).
    exists (g :: new). cbn [length concat].
    rewrite self_detect_calls_app, Hg, Hg1, Hs, Hs1, Hn, Hn1, <- !app_assoc, Hlen.
    repeat split; reflexivity.
Qed.

(** The number of groups [Init] sets for a sequence of [len] entries. *)
Lemma Init_groups_returned n st st' :
  Init_groups n st = (Returned tt, st') ->
  exists g new,
    subscript n "groups" = Returned g
    /\ host_groups_of st' = host_groups_of st ++ new
    /\ host_status st' = host_status st ++ self_detect_calls (concat new)
    /\ (IsDefined g = false -> new = [] /\ groups_of st' = groups_of st)
    /\ (IsDefined g = true ->
        exists gs,
          g = Sequence gs
          /\ groups_of st' =
             (if uint32 (Z.of_nat (length gs)) >? PL_NH_MAX_GROUP_RINGS
              then PL_NH_MAX_GROUP_RINGS
              else uint32 (Z.of_nat (length gs)))
          /\ length new = Z.to_nat (groups_of st')).
Proof.
  intros E. unfold Init_groups in E. ran E g s0 E0.
  apply lift_returned in E0. destruct E0 as [Hg ->].
  destruct (IsDefined g) eqn:Hd; cbn [when] in E.
  - cbv zeta in E. destruct g as [| |?|gs|?]; try discriminate E. clear Hd.
    cbn [IsSequence negb elements] in E.
    ran E u s1 E1. ran E s s2 E2. cbn in E2. injection E2 as <- <-.
    destruct (load_groups_returned _ _ _ _ _ E) as (new & Hlen & Hhg & Hhs & Hn).
    assert (H1 : host_groups_of s1 = host_groups_of st
                 /\ host_status s1 = host_status st
                 /\ groups_of s1 =
                    (if uint32 (Z.of_nat (length gs)) >? PL_NH_MAX_GROUP_RINGS
                     then PL_NH_MAX_GROUP_RINGS
                     else uint32 (Z.of_nat (length gs)))).
    { destruct (uint32 (Z.of_nat (length gs)) >? PL_NH_MAX_GROUP_RINGS);
        cbn in E1; injection E1 as _ <-; repeat split; reflexivity. }
    destruct H1 as (H1g & H1s & H1n).
    exists (Sequence gs), new. rewrite Hhg, Hhs, Hn, H1g, H1s.
    split; [exact Hg | ]. split; [reflexivity | ]. split; [reflexivity | ].
    split; [ cbn; discriminate | ]. intros _. exists gs.
    split; [reflexivity | ]. split; [exact H1n | ].
    rewrite Hlen. reflexivity.
  - cbn in E. injection E as <-. exists g, []. cbn. rewrite !app_nil_r.
    split; [exact Hg | ]. split; [reflexivity | ]. split; [reflexivity | ].
    split; [ intros _; split; reflexivity | rewrite Hd; discriminate ].
Qed.

(** ** The mark-down predicate *)

Lemma onFailureMarkParentDown_true (c : Z) :
  onFailureMarkParentDown c = true <-> 500 <= c <= 599.
Proof.
  unfold onFailureMarkParentDown. rewrite andb_true_iff, Z.geb_le, Z.leb_le.
  lia.
Qed.

(** A counted loop returns when its body returns at every index it visits. *)
Lemma for_range_returns (body : nat -> M unit) count :
  forall i,
    (forall j st, (i <= j < i + count)%nat ->
                  exists st', body j st = (Returned tt, st')) ->
    forall st, exists st', for_range count i body st = (Returned tt, st').
Proof.
  induction count as [|count IH]; intros i Hb st; cbn.
  - exists st. reflexivity.
  - destruct (Hb i st ltac:(lia)) as [s1 E1].
    rewrite (bind_step _ _ _ _ _ E1). apply IH.
    intros j st0 Hj. apply Hb. lia.
Qed.

(** ** The scan of [nextHopExists] *)

Lemma nextHopExists_from_spec s count :
  forall gg,
    (gg + count <= length (host_groups s))%nat ->
    exists b,
      nextHopExists_from count gg s = Some b
      /\ (b = true <->
          exists g hosts h,
            (gg <= g < gg + count)%nat
            /\ nth_error (host_groups s) g = Some hosts
            /\ In h hosts /\ available h = true).
Proof.
  induction count as [|count IH]; intros gg Hlen; cbn.
  - exists false. split; [reflexivity | ]. split; [discriminate | ].
    intros (g & _ & _ & Hg & _). lia.
  - destruct (nth_error (host_groups s) gg) as [hosts|] eqn:Hnth.
    2:{ apply nth_error_None in Hnth. lia. }
    destruct (existsb available hosts) eqn:Hany.
    + exists true. split; [reflexivity | ]. split; [ | reflexivity ].
      intros _. apply existsb_exists in Hany. destruct Hany as (h & Hin & Hav).
      exists gg, hosts, h. repeat split; try assumption; lia.
    + destruct (IH (S gg) ltac:(lia)) as (b & Hb & Hiff).
      exists b. split; [exact Hb | ]. rewrite Hiff. split.
      * intros (g & hs & h & Hg & Hn & Hin & Hav).
        exists g, hs, h. repeat split; try assumption; lia.
      * intros (g & hs & h & Hg & Hn & Hin & Hav).
        destruct (Nat.eq_dec g gg) as [-> | Hne].
        -- rewrite Hnth in Hn. injection Hn as <-.
           assert (existsb available hosts = true)
             by (apply existsb_exists; exists h; split; assumption).
           congruence.
        -- exists g, hs, h. repeat split; try assumption; lia.
Qed.

End InitRuns.

Section Claims.
Context {P : Platform}.

(** C3: for every status code [c], [onFailureMarkParentDown c] is true if and
    only if [500 <= c <= 599]. *)
Theorem onFailureMarkParentDown_iff_5xx (c : Z) :
  onFailureMarkParentDown c = true <-> 500 <= c <= 599.
Proof. exact (onFailureMarkParentDown_true c). Qed.

(** C4, as amended: [onFailureMarkParentDown] applied to the connection-failure
    status, which is no HTTP status of the classes 3xx to 5xx, returns false:
    a failed connection does not mark the parent down through this
    predicate. *)
Theorem onFailureMarkParentDown_connection_failure :
  onFailureMarkParentDown STATUS_CONNECTION_FAILURE = false.
Proof.
  pose proof connection_failure_not_http as Hn.
  destruct (onFailureMarkParentDown STATUS_CONNECTION_FAILURE) eqn:E;
    [ | reflexivity ].
  apply onFailureMarkParentDown_true in E. lia.
Qed.

(** C1, where the code departs from it: when a configuration without a
    [failover] node loads, as the empty one does, the response codes of the
    loaded strategy do not contain the connection-failure status. *)
Theorem Init_without_failover_lacks_connection_failure name n st' :
  subscript n "failover" = Returned Undefined ->
  load name n = (true, st') ->
  codeIsFailure (this st') STATUS_CONNECTION_FAILURE = false.
Proof.
  intros Hn Hload. unfold load in Hload.
  pose proof (Init_keeps codes_of n (fun l st => eq_refl)
                (Init_without_failover_keeps_codes n Hn) (initial_state name)) as Hk.
  rewrite Hload in Hk. cbn in Hk. unfold codes_of in Hk.
  unfold codeIsFailure. rewrite Hk. reflexivity.
Qed.

(** C6: for every configuration whose [groups] node is present and is not a
    sequence, [Init] returns false, and no host group has been loaded. *)
Theorem Init_rejects_groups_not_a_sequence n g st :
  subscript n "groups" = Returned g ->
  IsDefined g = true -> IsSequence g = false ->
  fst (Init n st) = false
  /\ host_groups (this (snd (Init n st))) = host_groups (this st).
Proof.
  intros H Hd Hs. split.
  - destruct (fst (Init n st)) eqn:E; [ | reflexivity ].
    apply Init_true in E. unfold Init_body in E.
    ran E u1 s1 E1. ran E u2 s2 E2. ran E u3 s3 E3. ran E u4 s4 E4.
    ran E u5 s5 E5.
    destruct (Init_groups_not_a_sequence n g H Hd Hs s5) as [ex Hex].
    rewrite Hex in E. discriminate E.
  - apply (Init_keeps host_groups_of n (fun l st0 => eq_refl)).
    unfold Init_body.
    do 5 (apply keeps_bind; [frame | intros _]).
    intros st0. destruct (Init_groups_not_a_sequence n g H Hd Hs st0) as [ex Hex].
    rewrite Hex. reflexivity.
Qed.

(** The [ring_mode] block on a value that names no ring mode: the mode is set
    to alternate, a note is logged, nothing is thrown. *)
Lemma Init_ring_mode_invalid fo v st :
  subscript fo "ring_mode" = Returned (Scalar v) ->
  v <> alternate_rings -> v <> exhaust_rings ->
  Init_ring_mode fo st =
    (Returned tt,
     mkState (set_ring_mode PL_NH_ALTERNATE_RING (this st)) (host_status st)
       (logged st ++ [Note_invalid_ring_mode v (strategy_name (this st))])).
Proof.
  intros H Ha He. unfold Init_ring_mode.
  rewrite H, bind_lift_returned. cbv [IsDefined when Scalar_of].
  apply String.eqb_neq in Ha, He. rewrite Ha, He. reflexivity.
Qed.

(** C10: for every configuration whose [failover.ring_mode] is a string other
    than [alternate_ring] and [exhaust_ring], the block sets [ring_mode] to the
    alternate-ring policy and does not throw; when [Init] returns true the
    strategy has that policy; and a configuration with nothing but such a
    [ring_mode] loads. *)
Theorem Init_invalid_ring_mode_is_alternate n fo v st :
  subscript n "failover" = Returned fo ->
  subscript fo "ring_mode" = Returned (Scalar v) ->
  v <> alternate_rings -> v <> exhaust_rings ->
  (exists st1, Init_ring_mode fo st = (Returned tt, st1)
               /\ ring_mode (this st1) = PL_NH_ALTERNATE_RING)
  /\ (fst (Init n st) = true ->
      ring_mode (this (snd (Init n st))) = PL_NH_ALTERNATE_RING)
  /\ (fst (Init (Map [("failover", Map [("ring_mode", Scalar v)])]) st) = true
      /\ ring_mode (this (snd (Init (Map [("failover",
                                          Map [("ring_mode", Scalar v)])]) st)))
         = PL_NH_ALTERNATE_RING).
Proof.
  intros Hn Hfo Ha He. split; [ | split ].
  - eexists. split; [ apply (Init_ring_mode_invalid fo v st Hfo Ha He) | reflexivity ].
  - intros Ht. apply Init_true in Ht. revert Ht.
    generalize (snd (Init n st)). intros st' E. unfold Init_body in E.
    ran E u1 s1 E1. ran E u2 s2 E2. ran E u3 s3 E3. ran E u4 s4 E4.
    ran E u5 s5 E5.
    pose proof (Init_groups_keeps_ring_mode n s5) as Hg. rewrite E in Hg.
    cbn in Hg. unfold ring_mode_of in Hg. rewrite Hg. clear E Hg.
    unfold Init_failover in E5. rewrite Hn, bind_lift_returned in E5.
    assert (Hd : IsDefined fo = true).
    { destruct fo; try reflexivity. discriminate Hfo. }
    rewrite Hd in E5. cbv [when] in E5. cbv zeta in E5.
    ran E5 u6 s6 E6.
    rewrite (Init_ring_mode_invalid fo v s4 Hfo Ha He) in E6.
    inversion E6; subst s6; clear E6.
    pose proof (Init_after_ring_mode_keeps fo
                  {| this := set_ring_mode PL_NH_ALTERNATE_RING (this s4);
                     host_status := host_status s4;
                     logged := logged s4 ++
                               [Note_invalid_ring_mode v (strategy_name (this s4))] |})
      as Hr.
    rewrite E5 in Hr. exact Hr.
  - pose proof (Init_ring_mode_invalid (Map [("ring_mode", Scalar v)]) v st
                  eq_refl Ha He) as Hr.
    unfold Init, Init_body.
    do 4 (rewrite (bind_step _ _ st tt st eq_refl)).
    unfold Init_failover.
    change (subscript (Map [("failover", Map [("ring_mode", Scalar v)])]) "failover")
      with (Returned (Map [("ring_mode", Scalar v)])).
    rewrite bind_lift_returned. cbv [IsDefined when]. cbv zeta.
    rewrite (bind_step _ _ st tt _ (bind_step _ _ st tt _ Hr)).
    cbn. split; reflexivity.
Qed.

(** C7, where the code departs from it: a host entry written with the merge
    tag and without a [weight] next to the tag is never decoded, whatever the
    merged node holds; the default is not applied. *)
Theorem decode_merge_tag_without_weight_throws node merge st :
  subscript node "<<" = Returned merge ->
  IsDefined merge = true ->
  subscript node "weight" = Returned Undefined ->
  exists ex st', as_PLHostRecord node st = (Thrown ex, st').
Proof.
  intros Hm Hd Hw.
  destruct (as_PLHostRecord node st) as [[nh|ex] st'] eqn:E;
    [ exfalso | exists ex, st'; reflexivity ].
  unfold as_PLHostRecord, decode_PLHostRecord in E.
  rewrite Hm, bind_lift_returned, Hd in E. cbv zeta in E.
  ran E host s1 E1. ran E nh1 s2 E2. ran E proto s3 E3. ran E nh2 s4 E4.
  rewrite Hw, bind_lift_returned in E. discriminate E.
Qed.

(** C5, as amended: when [failover.response_codes] is a sequence of integers,
    a successful [Init] of a new strategy leaves in [resp_codes], besides the
    connection-failure status, exactly the listed codes [c] with
    [300 < c < 599]; every other listed code, 300 and 599 among them, is
    dropped with a note; and a configuration with nothing but such a list
    loads. *)
Theorem Init_response_codes_open_interval name n fo ks codes :
  subscript n "failover" = Returned fo ->
  subscript fo "response_codes" = Returned (Sequence ks) ->
  Forall2 (fun k c => as_int k = Returned c) ks codes ->
  (forall st', load name n = (true, st') ->
     (forall c, codeIsFailure (this st') c = true <->
                c = STATUS_CONNECTION_FAILURE \/ (In c codes /\ 300 < c < 599))
     /\ skipped_codes (logged st') =
        filter (fun c => negb ((c >? 300) && (c <? 599))) codes)
  /\ fst (load name (Map [("failover", Map [("response_codes", Sequence ks)])]))
     = true.
Proof.
  intros Hn Hrc Hks. split.
  - intros st' E. apply Init_returned in E. unfold Init_body in E.
    ran E u1 s1 E1. ran E u2 s2 E2. ran E u3 s3 E3. ran E u4 s4 E4.
    ran E u5 s5 E5.
    assert (Hc4 : codes_of s4 = []).
    { apply (Init_scalars_keep codes_of n (initial_state name) s4 u1 u2 u3 u4 s1 s2 s3);
        try assumption; frame. }
    assert (Hk4 : skipped_of s4 = []).
    { apply (Init_scalars_keep skipped_of n (initial_state name) s4 u1 u2 u3 u4 s1 s2 s3);
        try assumption; frame. }
    unfold Init_failover in E5. rewrite Hn, bind_lift_returned in E5.
    assert (Hd : IsDefined fo = true).
    { destruct fo; try reflexivity. discriminate Hrc. }
    rewrite Hd in E5. cbv [when] in E5. cbv zeta in E5.
    ran E5 u6 s6 E6. ran E5 u7 s7 E7. ran E5 u8 s8 E8.
    assert (Hc7 : codes_of s7 = []).
    { kept codes_of E7. kept codes_of E6. exact Hc4. }
    assert (Hk7 : skipped_of s7 = []).
    { kept skipped_of E7. kept skipped_of E6. exact Hk4. }
    rewrite (Init_response_codes_run fo ks codes s7 Hrc Hks) in E8.
    injection E8 as _ Hs8.
    pose proof (keeps_run codes_of _ _ _ _ (Init_groups_keeps_codes n) E) as Hc.
    pose proof (keeps_run skipped_of _ _ _ _ (Init_groups_keeps_skipped n) E) as Hk.
    rewrite (keeps_run codes_of _ _ _ _ (Init_health_check_keeps_codes fo) E5) in Hc.
    rewrite (keeps_run skipped_of _ _ _ _ (Init_health_check_keeps_skipped fo) E5) in Hk.
    rewrite <- Hs8 in Hc, Hk. unfold codes_of, skipped_of in *.
    cbn [this resp_codes set_resp_codes logged] in Hc, Hk.
    rewrite Hc7 in Hc. rewrite skipped_codes_app, Hk7, skipped_codes_notes in Hk.
    split; [ | exact Hk ].
    intros c. unfold codeIsFailure.
    rewrite Hc, codes_contains_In, codes_sort_In, codes_add_all_In, codes_add_In,
      filter_In, andb_true_iff, Z.gtb_lt, Z.ltb_lt.
    cbn [In]. intuition auto.
  - set (fo' := Map [("response_codes", Sequence ks)]).
    set (cfg := Map [("failover", fo')]).
    set (st := initial_state name).
    assert (H1 : Init_scheme cfg st = (Returned tt, st)) by reflexivity.
    assert (H2 : Init_go_direct cfg st = (Returned tt, st)) by reflexivity.
    assert (H3 : Init_parent_is_proxy cfg st = (Returned tt, st)) by reflexivity.
    assert (H4 : Init_ignore_self_detect cfg st = (Returned tt, st)) by reflexivity.
    assert (H6 : Init_ring_mode fo' st = (Returned tt, st)) by reflexivity.
    assert (H7 : Init_max_simple_retries fo' st = (Returned tt, st)) by reflexivity.
    pose proof (Init_response_codes_run fo' ks codes st eq_refl Hks) as H8.
    unfold load, Init, Init_body. fold st.
    rewrite (bind_step _ _ _ _ _ H1), (bind_step _ _ _ _ _ H2),
      (bind_step _ _ _ _ _ H3), (bind_step _ _ _ _ _ H4).
    unfold Init_failover.
    change (subscript cfg "failover") with (Returned fo').
    rewrite bind_lift_returned. cbv [IsDefined when fo']. fold fo'. cbv zeta.
    rewrite (bind_step _ _ _ _ _
               (eq_trans (bind_step _ _ _ _ _ H6)
                  (eq_trans (bind_step _ _ _ _ _ H7) (bind_step _ _ _ _ _ H8)))).
    reflexivity.
Qed.

(** What a successful load of a new strategy leaves of the groups: the entries
    of [host_groups] and the mark-down calls come from the [groups] block
    alone. *)
Lemma load_groups name n st' :
  load name n = (true, st') ->
  exists g,
    subscript n "groups" = Returned g
    /\ host_status st' = self_detect_calls (concat (host_groups (this st')))
    /\ (IsDefined g = false -> host_groups (this st') = [] /\ groups (this st') = 0)
    /\ (IsDefined g = true ->
        exists gs,
          g = Sequence gs
          /\ groups (this st') =
             (if uint32 (Z.of_nat (length gs)) >? PL_NH_MAX_GROUP_RINGS
              then PL_NH_MAX_GROUP_RINGS
              else uint32 (Z.of_nat (length gs)))
          /\ length (host_groups (this st')) = Z.to_nat (groups (this st'))).
Proof.
  intros E. apply Init_returned in E. unfold Init_body in E.
  ran E u1 s1 E1. ran E u2 s2 E2. ran E u3 s3 E3. ran E u4 s4 E4.
  ran E u5 s5 E5.
  assert (Hhg : host_groups_of s5 = []).
  { kept host_groups_of E5. kept host_groups_of E4. kept host_groups_of E3.
    kept host_groups_of E2. kept host_groups_of E1. reflexivity. }
  assert (Hhs : host_status_of s5 = []).
  { kept host_status_of E5. kept host_status_of E4. kept host_status_of E3.
    kept host_status_of E2. kept host_status_of E1. reflexivity. }
  assert (Hn : groups_of s5 = 0).
  { kept groups_of E5. kept groups_of E4. kept groups_of E3.
    kept groups_of E2. kept groups_of E1. reflexivity. }
  destruct (Init_groups_returned n s5 st' E) as (g & new & Hg & Hg' & Hs' & Hu & Hd).
  unfold host_groups_of, host_status_of, groups_of in *.
  rewrite Hhg in Hg'. rewrite Hhs in Hs'. cbn in Hg', Hs'.
  exists g. split; [exact Hg | ]. split; [ rewrite Hs', Hg'; reflexivity | ]. split.
  - intros Hf. destruct (Hu Hf) as [-> Hk]. rewrite Hg', Hk, Hn. split; reflexivity.
  - intros Ht. destruct (Hd Ht) as (gs & -> & Hk & Hlen).
    exists gs. rewrite Hg'. repeat split; assumption.
Qed.

(** After a successful load [groups] is the length of [host_groups], so the
    scan of [nextHopExists] stays inside the vector. *)
Lemma load_groups_consistent name n st' :
  load name n = (true, st') ->
  groups (this st') = Z.of_nat (length (host_groups (this st'))).
Proof.
  intros E. pose proof max_group_rings_range as Hmax.
  destruct (load_groups name n st' E) as (g & _ & _ & Hu & Hd).
  destruct (IsDefined g).
  - destruct (Hd eq_refl) as (gs & _ & Hk & Hlen). rewrite Hlen.
    assert (0 <= groups (this st')); [ | lia ].
    rewrite Hk. unfold uint32.
    destruct (_ >? _); [ lia | apply Z.mod_pos_bound; lia ].
  - destruct (Hu eq_refl) as [-> ->]. reflexivity.
Qed.

(** C2, as amended: during a successful [Init] of a new strategy every loaded
    host whose name is the local process is marked down with the reason
    SELF_DETECT, and these are all the calls made, whether
    [ignore_self_detect] is set or not: the flag is stored and not consulted
    at load time. *)
Theorem Init_marks_self_down_whatever_the_flag name n st' :
  load name n = (true, st') ->
  host_status st' = self_detect_calls (concat (host_groups (this st')))
  /\ (forall host,
        In (self_detect_down host) (host_status st') <->
        exists h, In h (concat (host_groups (this st')))
                  /\ hostname h = host /\ TSHostnameIsSelf host = true).
Proof.
  intros E. destruct (load_groups name n st' E) as (g & _ & Hs & _).
  split; [exact Hs | ]. intros host. rewrite Hs. unfold self_detect_calls.
  rewrite in_map_iff. split.
  - intros (x & Hx & Hin). injection Hx as ->.
    apply filter_In in Hin. destruct Hin as [Hin Hself].
    apply in_map_iff in Hin. destruct Hin as (h & Hh & Hin).
    exists h. repeat split; assumption.
  - intros (h & Hin & Hh & Hself). exists host. split; [reflexivity | ].
    apply filter_In. split; [ | exact Hself ].
    apply in_map_iff. exists h. split; assumption.
Qed.

(** C9: when [groups] does not exceed the length of [host_groups],
    [nextHopExists] returns, and it returns true if and only if some group
    index [g < groups] has a host record in [host_groups[g]] whose
    [available] flag is true; it returns false exactly when every host of
    every such group is unavailable. *)
Theorem nextHopExists_iff_some_host_available s :
  groups s <= Z.of_nat (length (host_groups s)) ->
  exists b,
    nextHopExists s = Some b
    /\ (b = true <->
        exists g hosts h,
          Z.of_nat g < groups s
          /\ nth_error (host_groups s) g = Some hosts
          /\ In h hosts /\ available h = true)
    /\ (b = false <->
        forall g hosts h,
          Z.of_nat g < groups s ->
          nth_error (host_groups s) g = Some hosts ->
          In h hosts -> available h = false).
Proof.
  intros Hle. unfold nextHopExists.
  destruct (nextHopExists_from_spec s (Z.to_nat (groups s)) 0 ltac:(lia))
    as (b & Hb & Hiff).
  exists b. split; [exact Hb | ].
  assert (Hiff' : b = true <->
                  exists g hosts h,
                    Z.of_nat g < groups s
                    /\ nth_error (host_groups s) g = Some hosts
                    /\ In h hosts /\ available h = true).
  { rewrite Hiff. split; intros (g & hs & h & Hg & Hn & Hin & Hav);
      exists g, hs, h; repeat split; try assumption; lia. }
  split; [exact Hiff' | ]. split.
  - intros -> g hs h Hg Hn Hin.
    destruct (available h) eqn:Hav; [ | reflexivity ].
    assert (false = true) by (apply Hiff'; exists g, hs, h; auto).
    discriminate.
  - intros Hall. destruct b; [ | reflexivity ].
    destruct (proj1 Hiff' eq_refl) as (g & hs & h & Hg & Hn & Hin & Hav).
    rewrite (Hall g hs h Hg Hn Hin) in Hav. discriminate.
Qed.

(** Where C1 does hold: a configuration with a [failover] node that loads has
    the connection-failure status among its response codes. *)
Lemma Init_with_failover_has_connection_failure name n fo st' :
  subscript n "failover" = Returned fo ->
  IsDefined fo = true ->
  load name n = (true, st') ->
  codeIsFailure (this st') STATUS_CONNECTION_FAILURE = true.
Proof.
  intros Hn Hd E. apply Init_returned in E. unfold Init_body in E.
  ran E u1 s1 E1. ran E u2 s2 E2. ran E u3 s3 E3. ran E u4 s4 E4.
  ran E u5 s5 E5.
  unfold Init_failover in E5. rewrite Hn, bind_lift_returned, Hd in E5.
  cbv [when] in E5. cbv zeta in E5.
  ran E5 u6 s6 E6. ran E5 u7 s7 E7. ran E5 u8 s8 E8.
  unfold Init_response_codes in E8. ran E8 u9 s9 E9.
  ran E8 rc s10 E10. apply lift_returned in E10. destruct E10 as [_ ->].
  assert (H9 : has_connection_failure s9).
  { unfold add_resp_code, update in E9. injection E9 as _ <-.
    unfold has_connection_failure, codes_of. cbn [this resp_codes set_resp_codes].
    apply codes_add_In. left. reflexivity. }
  pose proof (stable_run _ _ _ _ _ (response_codes_stable rc) E8 H9) as H8.
  unfold has_connection_failure in H8.
  pose proof (keeps_run codes_of _ _ _ _ (Init_groups_keeps_codes n) E) as Hc.
  rewrite (keeps_run codes_of _ _ _ _ (Init_health_check_keeps_codes fo) E5) in Hc.
  unfold codeIsFailure. apply codes_contains_In.
  unfold codes_of in Hc, H8. rewrite Hc. exact H8.
Qed.

(** Where C7 does hold: a host entry without the merge tag and without a
    [weight] is decoded, when it is, with the weight 1.0. *)
Lemma decode_without_weight_defaults node st nh st' :
  subscript node "<<" = Returned Undefined ->
  subscript node "weight" = Returned Undefined ->
  as_PLHostRecord node st = (Returned nh, st') ->
  weight nh = float_1_0.
Proof.
  intros Hm Hw E. unfold as_PLHostRecord, decode_PLHostRecord in E.
  rewrite Hm, bind_lift_returned in E. cbv [IsDefined] in E. cbv zeta in E.
  ran E host s1 E1. ran E nh1 s2 E2. ran E proto s3 E3. ran E nh2 s4 E4.
  rewrite Hw, bind_lift_returned in E. cbv [IsDefined] in E.
  ran E nh3 s5 E5. ran E5 u s6 E6. cbn in E5. injection E5 as <- _.
  ran E hash s7 E7. cbn in E. injection E as <- _.
  destruct hash; reflexivity.
Qed.

End Claims.

(** ** Runs on the concrete platform *)

Section Scenarios.
Local Existing Instance demo.

(** C1: the empty configuration loads and the connection-failure status is
    not among its response codes. *)
Lemma Init_without_failover_lacks_connection_failure_witness :
  subscript cfg_empty "failover" = Returned Undefined
  /\ fst (load "s" cfg_empty) = true
  /\ codeIsFailure (this (snd (load "s" cfg_empty))) STATUS_CONNECTION_FAILURE
     = false.
Proof.
  split; [ reflexivity | split; [ reflexivity | ] ].
  apply (Init_without_failover_lacks_connection_failure "s" cfg_empty);
    reflexivity.
Defined.

(** C2: with [ignore_self_detect: true], the host named [localhost] is still
    marked down at load time. *)
Lemma self_detect_flag_counterexample :
  fst (load "s" cfg_self_ignored) = true
  /\ ignore_self_detect (this (snd (load "s" cfg_self_ignored))) = true
  /\ In (self_detect_down "localhost") (host_status (snd (load "s" cfg_self_ignored))).
Proof. vm_compute. repeat split. left. reflexivity. Qed.

Lemma Init_marks_self_down_whatever_the_flag_witness :
  load "s" cfg_self_ignored = (true, snd (load "s" cfg_self_ignored))
  /\ host_status (snd (load "s" cfg_self_ignored)) = [self_detect_down "localhost"].
Proof.
  assert (E : load "s" cfg_self_ignored = (true, snd (load "s" cfg_self_ignored)))
    by reflexivity.
  split; [ exact E | ].
  rewrite (proj1 (Init_marks_self_down_whatever_the_flag "s" cfg_self_ignored
                    (snd (load "s" cfg_self_ignored)) E)).
  reflexivity.
Defined.

(** C4: on this platform the connection-failure status is 0, and the
    predicate is not true of it. *)
Lemma connection_failure_marks_down_counterexample :
  onFailureMarkParentDown STATUS_CONNECTION_FAILURE <> true.
Proof. vm_compute. discriminate. Qed.

(** C5: 599 is listed and lies in [300, 599], the load succeeds, and 599 is
    not among the response codes; neither is 300. *)
Lemma response_code_599_counterexample :
  fst (load "s" cfg_codes) = true
  /\ codeIsFailure (this (snd (load "s" cfg_codes))) 599 = false
  /\ codeIsFailure (this (snd (load "s" cfg_codes))) 300 = false
  /\ resp_codes (this (snd (load "s" cfg_codes))) = [0; 404; 503].
Proof. vm_compute. repeat split. Qed.

Lemma Init_response_codes_open_interval_witness :
  (forall c, codeIsFailure (this (snd (load "s" cfg_codes))) c = true <->
             c = 0 \/ (In c [599; 503; 300; 404] /\ 300 < c < 599))
  /\ skipped_codes (logged (snd (load "s" cfg_codes))) = [599; 300].
Proof.
  assert (E : load "s" cfg_codes = (true, snd (load "s" cfg_codes)))
    by reflexivity.
  refine (proj1 (Init_response_codes_open_interval "s" cfg_codes
                   (Map [("response_codes",
                          Sequence [Scalar "599"; Scalar "503"; Scalar "300";
                                    Scalar "404"])])
                   [Scalar "599"; Scalar "503"; Scalar "300"; Scalar "404"]
                   [599; 503; 300; 404] eq_refl eq_refl _)
            (snd (load "s" cfg_codes)) E).
  repeat constructor.
Defined.

(** C6: a scalar under [groups]. *)
Lemma Init_rejects_groups_not_a_sequence_witness :
  fst (Init cfg_groups_scalar (initial_state "s")) = false
  /\ host_groups (this (snd (Init cfg_groups_scalar (initial_state "s")))) = [].
Proof.
  apply (Init_rejects_groups_not_a_sequence cfg_groups_scalar
           (Scalar "p1.example.com") (initial_state "s"));
    reflexivity.
Defined.

(** C7: a host entry written with the merge tag and no weight. *)
Lemma decode_merge_tag_without_weight_throws_witness :
  exists ex st', as_PLHostRecord merged_host (initial_state "s") = (Thrown ex, st').
Proof.
  apply (decode_merge_tag_without_weight_throws merged_host
           (Map [("host", Scalar "p1"); ("protocol", Sequence [])])
           (initial_state "s"));
    reflexivity.
Defined.

(** Without the merge tag the same entry is decoded with the weight 1.0
    (1000 thousandths) and a note. *)
Example decode_without_weight_example :
  as_PLHostRecord (Map [("host", Scalar "p1"); ("protocol", Sequence [])])
    (initial_state "s")
  = (Returned (mkHostRecord "p1" [] 1000 "" (-1) (-1) true),
     mkState (new_strategy "s") [] [Note_no_weight "p1"]).
Proof. reflexivity. Qed.

(** A group holding that entry makes [Init] return false. *)
Example Init_merge_tag_without_weight_example :
  fst (load "s" (Map [("groups", Sequence [Sequence [merged_host]])])) = false.
Proof. reflexivity. Qed.

(** C9: both hosts of the two loaded groups are available. *)
Lemma nextHopExists_iff_some_host_available_witness :
  groups loaded_two_groups <= Z.of_nat (length (host_groups loaded_two_groups))
  /\ nextHopExists loaded_two_groups = Some true.
Proof.
  assert (H : groups loaded_two_groups
              <= Z.of_nat (length (host_groups loaded_two_groups)))
    by (vm_compute; discriminate).
  split; [ exact H | ].
  destruct (nextHopExists_iff_some_host_available loaded_two_groups H)
    as (b & Hb & Htrue & _).
  rewrite Hb. f_equal. apply Htrue.
  exists 0%nat. eexists. eexists.
  split; [ reflexivity | ]. split; [ reflexivity | ].
  split; [ left; reflexivity | reflexivity ].
Defined.

(** C10: [ring_mode: bogus]. *)
Lemma Init_invalid_ring_mode_is_alternate_witness :
  fst (Init cfg_bogus_ring_mode (initial_state "s")) = true
  /\ ring_mode (this (snd (Init cfg_bogus_ring_mode (initial_state "s"))))
     = PL_NH_ALTERNATE_RING.
Proof.
  refine (proj2 (proj2 (Init_invalid_ring_mode_is_alternate cfg_bogus_ring_mode
                          (Map [("ring_mode", Scalar "bogus")]) "bogus"
                          (initial_state "s") eq_refl eq_refl _ _)));
    discriminate.
Defined.

End Scenarios.

(** * Beyond the claims: what else the code shows *)

(** ** More about runs and loops *)

Section MoreRuns.
Context {P : Platform}.

Lemma stable_of_keeps {X A} (f : State -> X) (I : State -> Prop) (m : M A) :
  keeps f m ->
  (forall st st', f st' = f st -> I st -> I st') ->
  stable I m.
Proof. intros Hk Hf st HI. exact (Hf st _ (Hk st) HI). Qed.

Lemma stable_for_range (I : State -> Prop) (body : nat -> M unit) :
  (forall i, stable I (body i)) ->
  forall count i, stable I (for_range count i body).
Proof.
  intros Hb. induction count as [|count IH]; intros i; cbn.
  - intros st HI; exact HI.
  - apply stable_bind; [apply Hb | intros _; apply IH].
Qed.

Lemma stable_for_range_acc {B} (I : State -> Prop) (body : nat -> B -> M B) :
  (forall i acc, stable I (body i acc)) ->
  forall count i acc, stable I (for_range_acc count i acc body).
Proof.
  intros Hb. induction count as [|count IH]; intros i acc; cbn.
  - intros st HI; exact HI.
  - apply stable_bind; [apply Hb | intros acc'; apply IH].
Qed.

(** A bind returns only if its first part does. *)
Lemma never_returns_bind_left {A B} (m : M A) (k : A -> M B) :
  never_returns m -> never_returns (bind m k).
Proof.
  intros Hm st b st' E. apply bind_returned in E.
  destruct E as (a & s1 & E1 & _). exact (Hm _ _ _ E1).
Qed.

Lemma never_returns_bind_right {A B} (m : M A) (k : A -> M B) :
  (forall a, never_returns (k a)) -> never_returns (bind m k).
Proof.
  intros Hk st b st' E. apply bind_returned in E.
  destruct E as (a & s1 & _ & E2). exact (Hk _ _ _ _ E2).
Qed.

Lemma never_returns_lift_thrown {A} (e : exn) : never_returns (@lift P A (Thrown e)).
Proof. intros st a st' E. discriminate E. Qed.

(** A loop returns only if its body does at every element. *)
Lemma for_each_never_returns {A} (body : A -> M unit) (l : list A) k :
  In k l -> never_returns (body k) -> never_returns (for_each l body).
Proof.
  intros Hin Hk. induction l as [|x rest IH]; [ destruct Hin | ].
  cbn. destruct Hin as [-> | Hin].
  - apply never_returns_bind_left. exact Hk.
  - apply never_returns_bind_right. intros _. exact (IH Hin).
Qed.

Lemma for_range_never_returns (body : nat -> M unit) count :
  forall i j,
    (i <= j < i + count)%nat -> never_returns (body j) ->
    never_returns (for_range count i body).
Proof.
  induction count as [|count IH]; intros i j Hj Hb; [ lia | ].
  cbn. destruct (Nat.eq_dec j i) as [-> | Hne].
  - apply never_returns_bind_left. exact Hb.
  - apply never_returns_bind_right. intros _. apply (IH (S i) j); [ lia | exact Hb ].
Qed.

Lemma for_range_acc_never_returns {B} (body : nat -> B -> M B) count :
  forall i j acc,
    (i <= j < i + count)%nat -> (forall a, never_returns (body j a)) ->
    never_returns (for_range_acc count i acc body).
Proof.
  induction count as [|count IH]; intros i j acc Hj Hb; [ lia | ].
  cbn. destruct (Nat.eq_dec j i) as [-> | Hne].
  - apply never_returns_bind_left. apply Hb.
  - apply never_returns_bind_right. intros a. apply (IH (S i) j); [ lia | exact Hb ].
Qed.

(** [Init] returns false exactly when its body does not return. *)
Lemma Init_false_of_never_returns n :
  never_returns (Init_body n) -> forall st, fst (Init n st) = false.
Proof.
  intros Hn st. destruct (fst (Init n st)) eqn:E; [ | reflexivity ].
  apply Init_true in E. destruct (Hn _ _ _ E).
Qed.

(** The body returns only if each of its six blocks does. *)
Lemma Init_body_never_returns n :
  never_returns (Init_scheme n) \/ never_returns (Init_go_direct n)
  \/ never_returns (Init_parent_is_proxy n)
  \/ never_returns (Init_ignore_self_detect n)
  \/ never_returns (Init_failover n) \/ never_returns (Init_groups n) ->
  never_returns (Init_body n).
Proof.
  unfold Init_body. intros [H | [H | [H | [H | [H | H]]]]].
  - apply never_returns_bind_left. exact H.
  - apply never_returns_bind_right; intros _.
    apply never_returns_bind_left. exact H.
  - do 2 (apply never_returns_bind_right; intros _).
    apply never_returns_bind_left. exact H.
  - do 3 (apply never_returns_bind_right; intros _).
    apply never_returns_bind_left. exact H.
  - do 4 (apply never_returns_bind_right; intros _).
    apply never_returns_bind_left. exact H.
  - do 5 (apply never_returns_bind_right; intros _). exact H.
Qed.

End MoreRuns.

(** ** What makes [Init] reject a configuration *)

Section Rejections.
Context {P : Platform}.

Lemma flag_block_never_returns (set : bool -> PLNextHopSelectionStrategy ->
                                      PLNextHopSelectionStrategy) v e :
  IsDefined v = true -> as_bool v = Thrown e ->
  never_returns
    (when (IsDefined v) (bind (lift (as_bool v)) (fun b => update (set b)))).
Proof.
  intros Hd Hb st a st' E. rewrite Hd, Hb in E. discriminate E.
Qed.

(** X1: a [go_direct], [parent_is_proxy] or [ignore_self_detect] that is
    present and does not convert to a boolean makes [Init] return false. *)
Theorem Init_rejects_flag_that_is_no_boolean n key v e st :
  In key ["go_direct"; "parent_is_proxy"; "ignore_self_detect"] ->
  subscript n key = Returned v ->
  IsDefined v = true ->
  as_bool v = Thrown e ->
  fst (Init n st) = false.
Proof.
  intros Hkey Hn Hd Hb. apply Init_false_of_never_returns.
  apply Init_body_never_returns.
  destruct Hkey as [<- | [<- | [<- | []]]].
  - right; left. unfold Init_go_direct. rewrite Hn, bind_lift_returned.
    apply (flag_block_never_returns set_go_direct v e Hd Hb).
  - right; right; left. unfold Init_parent_is_proxy. rewrite Hn, bind_lift_returned.
    apply (flag_block_never_returns set_parent_is_proxy v e Hd Hb).
  - right; right; right; left. unfold Init_ignore_self_detect.
    rewrite Hn, bind_lift_returned.
    apply (flag_block_never_returns set_ignore_self_detect v e Hd Hb).
Qed.

Lemma failover_defined n fo key v :
  subscript n "failover" = Returned fo ->
  subscript fo key = Returned v -> IsDefined v = true ->
  IsDefined fo = true.
Proof.
  intros _ Hfo Hd. destruct fo; try reflexivity.
  cbn in Hfo. injection Hfo as <-. discriminate Hd.
Qed.

(** X2: a [failover.max_simple_retries] that is present and does not convert
    to an integer makes [Init] return false. *)
Theorem Init_rejects_max_simple_retries_that_is_no_integer n fo v e st :
  subscript n "failover" = Returned fo ->
  subscript fo "max_simple_retries" = Returned v ->
  IsDefined v = true ->
  as_int v = Thrown e ->
  fst (Init n st) = false.
Proof.
  intros Hn Hfo Hd Hv. apply Init_false_of_never_returns.
  apply Init_body_never_returns. do 4 right. left.
  unfold Init_failover.
  rewrite Hn, bind_lift_returned, (failover_defined n fo _ v Hn Hfo Hd).
  cbv [when]. cbv zeta. apply never_returns_bind_right. intros _.
  apply never_returns_bind_left. unfold Init_max_simple_retries.
  rewrite Hfo, bind_lift_returned, Hd, Hv.
  intros s a s' E. discriminate E.
Qed.

(** X3: an entry of [failover.response_codes] that does not convert to an
    integer makes [Init] return false: the whole strategy is rejected, not
    the one code. *)
Theorem Init_rejects_response_code_that_is_no_integer n fo ks k e st :
  subscript n "failover" = Returned fo ->
  subscript fo "response_codes" = Returned (Sequence ks) ->
  In k ks ->
  as_int k = Thrown e ->
  fst (Init n st) = false.
Proof.
  intros Hn Hfo Hin Hk. apply Init_false_of_never_returns.
  apply Init_body_never_returns. do 4 right. left.
  unfold Init_failover.
  rewrite Hn, bind_lift_returned, (failover_defined n fo _ _ Hn Hfo eq_refl).
  cbv [when]. cbv zeta. do 2 (apply never_returns_bind_right; intros _).
  apply never_returns_bind_left. unfold Init_response_codes.
  apply never_returns_bind_right; intros _.
  rewrite Hfo, bind_lift_returned. cbv [IsDefined when IsSequence negb elements].
  cbv zeta. apply never_returns_bind_left.
  apply (for_each_never_returns _ ks k Hin).
  rewrite Hk. intros s a s' E. discriminate E.
Qed.

(** The groups block runs [load_group] at every index below the length of
    the sequence and below the cap. *)
Lemma Init_groups_never_returns_at n gs g :
  subscript n "groups" = Returned (Sequence gs) ->
  Z.of_nat (length gs) < 2 ^ 32 ->
  (g < length gs)%nat ->
  Z.of_nat g < PL_NH_MAX_GROUP_RINGS ->
  never_returns (load_group (Sequence gs) g) ->
  never_returns (Init_groups n).
Proof.
  intros Hn Hlen Hg Hcap Hgrp. unfold Init_groups.
  rewrite Hn, bind_lift_returned. cbv [IsDefined when IsSequence negb elements].
  cbv zeta. intros st a st' E.
  ran E u s1 E1. ran E s s2 E2. cbn in E2. injection E2 as <- <-.
  assert (Hk : (g < Z.to_nat (groups (this s1)))%nat).
  { unfold uint32 in E1. rewrite Z.mod_small in E1 by lia.
    destruct (Z.of_nat (length gs) >? PL_NH_MAX_GROUP_RINGS) eqn:Hcmp;
      rewrite Z.gtb_ltb in Hcmp;
      [ apply Z.ltb_lt in Hcmp | apply Z.ltb_ge in Hcmp ];
      cbn in E1; injection E1 as _ <-; cbn; lia. }
  assert (Hr : (0 <= g < 0 + Z.to_nat (groups (this s1)))%nat) by lia.
  exact (for_range_never_returns _ _ 0 g Hr Hgrp _ _ _ E).
Qed.

(** X4: a group that is not a sequence of hosts, at an index below the cap,
    makes [Init] return false. *)
Theorem Init_rejects_group_that_is_no_sequence n gs g st :
  subscript n "groups" = Returned (Sequence gs) ->
  Z.of_nat (length gs) < 2 ^ 32 ->
  (g < length gs)%nat ->
  Z.of_nat g < PL_NH_MAX_GROUP_RINGS ->
  IsSequence (nth g gs Undefined) = false ->
  fst (Init n st) = false.
Proof.
  intros Hn Hlen Hg Hcap Hseq. apply Init_false_of_never_returns.
  apply Init_body_never_returns. do 5 right.
  apply (Init_groups_never_returns_at n gs g Hn Hlen Hg Hcap).
  unfold load_group. cbv zeta. unfold at_index at 1. cbn [elements].
  rewrite Hseq. intros s a s' E. discriminate E.
Qed.

(** X5: a host entry that cannot be decoded, in a group below the cap, makes
    [Init] return false: one bad host rejects the whole strategy. *)
Theorem Init_rejects_host_that_does_not_decode n gs g hosts h st :
  subscript n "groups" = Returned (Sequence gs) ->
  Z.of_nat (length gs) < 2 ^ 32 ->
  Z.of_nat g < PL_NH_MAX_GROUP_RINGS ->
  nth_error gs g = Some (Sequence hosts) ->
  (h < length hosts)%nat ->
  never_returns (as_PLHostRecord (nth h hosts Undefined)) ->
  fst (Init n st) = false.
Proof.
  intros Hn Hlen Hcap Hnth Hh Hdec. apply Init_false_of_never_returns.
  apply Init_body_never_returns. do 5 right.
  assert (Hg : (g < length gs)%nat) by (apply nth_error_Some; congruence).
  apply (Init_groups_never_returns_at n gs g Hn Hlen Hg Hcap).
  unfold load_group. cbv zeta.
  assert (Hat : at_index (Sequence gs) g = Sequence hosts).
  { unfold at_index. cbn [elements]. apply nth_error_nth. exact Hnth. }
  rewrite Hat. cbn [IsSequence negb elements].
  apply never_returns_bind_left.
  apply (for_range_acc_never_returns _ _ 0 h []); [ lia | ].
  intros acc. unfold load_host. apply never_returns_bind_left.
  unfold at_index. cbn [elements]. exact Hdec.
Qed.

(** X6: a configuration with none of the six keys [Init] reads (unknown keys
    only, an empty map, a null node, a sequence) loads and leaves the
    strategy, the host status store and the log exactly as they were. *)
Theorem Init_ignores_unknown_keys n st :
  subscript n "scheme" = Returned Undefined ->
  subscript n "go_direct" = Returned Undefined ->
  subscript n "parent_is_proxy" = Returned Undefined ->
  subscript n "ignore_self_detect" = Returned Undefined ->
  subscript n "failover" = Returned Undefined ->
  subscript n "groups" = Returned Undefined ->
  Init n st = (true, st).
Proof.
  intros H1 H2 H3 H4 H5 H6.
  unfold Init, Init_body, Init_scheme, Init_go_direct, Init_parent_is_proxy,
    Init_ignore_self_detect, Init_failover, Init_groups.
  rewrite H1, H2, H3, H4, H5, H6. reflexivity.
Qed.

(** A configuration that is a scalar is rejected at the first lookup:
    [Init] returns false and changes nothing but the log, which gets the
    note with the exception. *)
Theorem Init_rejects_scalar_configuration text st :
  Init (Scalar text) st =
    (false,
     mkState (this st) (host_status st)
       (logged st ++ [Note_error_parsing (strategy_name (this st)) BadSubscript])).
Proof. reflexivity. Qed.

End Rejections.

(** ** The settings a successful [Init] leaves *)

Section Settings.
Context {P : Platform}.

(** X7: when [Init] returns true, [scheme] is what the [scheme] key names:
    HTTP for [http], HTTPS for [https], NONE for any other value (which is
    not rejected), and what it was when the key is absent. *)
Theorem Init_sets_scheme n sch st :
  subscript n "scheme" = Returned sch ->
  fst (Init n st) = true ->
  scheme (this (snd (Init n st))) =
    if IsDefined sch then scheme_of_text (Scalar_of sch) else scheme (this st).
Proof.
  intros Hn Ht. apply Init_true in Ht. revert Ht.
  generalize (snd (Init n st)). intros st' E. unfold Init_body in E.
  ran E u1 s1 E1. ran E u2 s2 E2. ran E u3 s3 E3. ran E u4 s4 E4.
  ran E u5 s5 E5.
  change (scheme (this st')) with (scheme_of st').
  kept scheme_of E. kept scheme_of E5. kept scheme_of E4. kept scheme_of E3.
  kept scheme_of E2. unfold scheme_of.
  unfold Init_scheme in E1. rewrite Hn, bind_lift_returned in E1.
  destruct (IsDefined sch); cbv [when] in E1; cbv zeta in E1.
  - unfold scheme_of_text.
    destruct (Scalar_of sch =? "http")%string;
      [ | destruct (Scalar_of sch =? "https")%string ];
      cbn in E1; injection E1 as _ <-; reflexivity.
  - cbn in E1. injection E1 as _ <-. reflexivity.
Qed.

Lemma flag_block_returned (set : bool -> PLNextHopSelectionStrategy ->
                                 PLNextHopSelectionStrategy) v st u st' :
  when (IsDefined v) (bind (lift (as_bool v)) (fun b => update (set b))) st
  = (Returned u, st') ->
  (IsDefined v = true /\ exists b, as_bool v = Returned b
                                   /\ this st' = set b (this st))
  \/ (IsDefined v = false /\ st' = st).
Proof.
  intros E. destruct (IsDefined v); cbv [when] in E.
  - left. split; [reflexivity | ]. ran E b s1 E1.
    apply lift_returned in E1. destruct E1 as [Hb ->].
    exists b. split; [exact Hb | ]. cbn in E. injection E as _ <-. reflexivity.
  - right. split; [reflexivity | ]. cbn in E. injection E as _ <-. reflexivity.
Qed.

(** X8: when [Init] returns true, each of [go_direct], [parent_is_proxy]
    and [ignore_self_detect] holds the boolean its key converts to, and is
    what it was when its key is absent. *)
Theorem Init_sets_flags n gd pp isd st :
  subscript n "go_direct" = Returned gd ->
  subscript n "parent_is_proxy" = Returned pp ->
  subscript n "ignore_self_detect" = Returned isd ->
  fst (Init n st) = true ->
  (if IsDefined gd then as_bool gd = Returned (go_direct (this (snd (Init n st))))
   else go_direct (this (snd (Init n st))) = go_direct (this st))
  /\ (if IsDefined pp
      then as_bool pp = Returned (parent_is_proxy (this (snd (Init n st))))
      else parent_is_proxy (this (snd (Init n st))) = parent_is_proxy (this st))
  /\ (if IsDefined isd
      then as_bool isd = Returned (ignore_self_detect (this (snd (Init n st))))
      else ignore_self_detect (this (snd (Init n st)))
           = ignore_self_detect (this st)).
Proof.
  intros Hgd Hpp Hisd Ht. apply Init_true in Ht. revert Ht.
  generalize (snd (Init n st)). intros st' E. unfold Init_body in E.
  ran E u1 s1 E1. ran E u2 s2 E2. ran E u3 s3 E3. ran E u4 s4 E4.
  ran E u5 s5 E5.
  assert (Hf : flags_of st' = flags_of s4).
  { kept flags_of E. kept flags_of E5. reflexivity. }
  assert (H1 : flags_of s1 = flags_of st) by (kept flags_of E1; reflexivity).
  unfold flags_of in Hf, H1. injection Hf as -> -> ->. injection H1 as H1g H1p H1i.
  unfold Init_go_direct in E2. rewrite Hgd, bind_lift_returned in E2.
  unfold Init_parent_is_proxy in E3. rewrite Hpp, bind_lift_returned in E3.
  unfold Init_ignore_self_detect in E4. rewrite Hisd, bind_lift_returned in E4.
  apply flag_block_returned in E2, E3, E4.
  destruct E2 as [(-> & b2 & Hb2 & T2) | (-> & ->)];
    destruct E3 as [(-> & b3 & Hb3 & T3) | (-> & ->)];
    destruct E4 as [(-> & b4 & Hb4 & T4) | (-> & ->)];
    rewrite ?T4, ?T3, ?T2; cbn; rewrite ?T3, ?T2; cbn; rewrite ?T2; cbn;
    repeat split; assumption.
Qed.

(** X9: when [Init] returns true on a configuration with a [failover]
    node, [ring_mode] is the exhaust-ring policy exactly for the value
    [exhaust_ring] and the alternate-ring policy for every other value, and
    [max_simple_retries] is the integer its key converts to, taken as an
    unsigned 32-bit value (modulo 2^32, so that -1 gives 4294967295); each
    is what it was when its key is absent. *)
Theorem Init_sets_failover_scalars n fo rm msr st :
  subscript n "failover" = Returned fo ->
  IsDefined fo = true ->
  subscript fo "ring_mode" = Returned rm ->
  subscript fo "max_simple_retries" = Returned msr ->
  fst (Init n st) = true ->
  ring_mode (this (snd (Init n st))) =
    (if IsDefined rm
     then if (Scalar_of rm =? exhaust_rings)%string
          then PL_NH_EXHAUST_RING else PL_NH_ALTERNATE_RING
     else ring_mode (this st))
  /\ (if IsDefined msr
      then exists v,
             as_int msr = Returned v
             /\ max_simple_retries (this (snd (Init n st))) = v mod 2 ^ 32
      else max_simple_retries (this (snd (Init n st)))
           = max_simple_retries (this st)).
Proof.
  intros Hn Hd Hrm Hmsr Ht. apply Init_true in Ht. revert Ht.
  generalize (snd (Init n st)). intros st' E. unfold Init_body in E.
  ran E u1 s1 E1. ran E u2 s2 E2. ran E u3 s3 E3. ran E u4 s4 E4.
  ran E u5 s5 E5.
  unfold Init_failover in E5. rewrite Hn, bind_lift_returned, Hd in E5.
  cbv [when] in E5. cbv zeta in E5.
  ran E5 u6 s6 E6. ran E5 u7 s7 E7. ran E5 u8 s8 E8.
  split.
  - change (ring_mode (this st')) with (ring_mode_of st').
    kept ring_mode_of E. kept ring_mode_of E5. kept ring_mode_of E8.
    kept ring_mode_of E7.
    assert (H4 : ring_mode_of s4 = ring_mode_of st).
    { kept ring_mode_of E4. kept ring_mode_of E3. kept ring_mode_of E2.
      kept ring_mode_of E1. reflexivity. }
    unfold ring_mode_of in *. rewrite <- H4.
    unfold Init_ring_mode in E6. rewrite Hrm, bind_lift_returned in E6.
    destruct (IsDefined rm); cbv [when] in E6; cbv zeta in E6.
    + destruct (Scalar_of rm =? alternate_rings)%string eqn:Ha.
      * apply String.eqb_eq in Ha. rewrite Ha.
        cbn in E6. injection E6 as _ <-. reflexivity.
      * destruct (Scalar_of rm =? exhaust_rings)%string;
          cbn in E6; injection E6 as _ <-; reflexivity.
    + cbn in E6. injection E6 as _ <-. reflexivity.
  - change (max_simple_retries (this st')) with (max_simple_retries_of st').
    kept max_simple_retries_of E. kept max_simple_retries_of E5.
    kept max_simple_retries_of E8.
    assert (H6 : max_simple_retries_of s6 = max_simple_retries_of st).
    { kept max_simple_retries_of E6. kept max_simple_retries_of E4.
      kept max_simple_retries_of E3. kept max_simple_retries_of E2.
      kept max_simple_retries_of E1. reflexivity. }
    unfold max_simple_retries_of in *.
    unfold Init_max_simple_retries in E7. rewrite Hmsr, bind_lift_returned in E7.
    destruct (IsDefined msr); cbv [when] in E7.
    + ran E7 v s9 E9. apply lift_returned in E9. destruct E9 as [Hv ->].
      unfold update in E7. injection E7 as _ <-.
      exists v. split; [exact Hv | reflexivity].
    + cbn in E7. injection E7 as _ <-. exact H6.
Qed.

(** The loop over [health_check]: each flag is raised when its word is
    listed and never lowered. *)
Lemma health_check_loop ks texts :
  Forall2 (fun k t => as_string k = Returned t) ks texts ->
  forall st st',
    for_each ks
      (fun it =>
         bind (lift (as_string it))
           (fun health_check =>
              bind
                (when (health_check =? active_health_check)%string
                   (update (fun s =>
                      set_health_checks
                        (mkHealthChecks true (passive (health_checks s))) s)))
                (fun _ =>
                   when (health_check =? passive_health_check)%string
                     (update (fun s =>
                        set_health_checks
                          (mkHealthChecks (active (health_checks s)) true) s)))))
      st = (Returned tt, st') ->
    active (health_checks_of st') =
      active (health_checks_of st)
      || existsb (fun t => (t =? active_health_check)%string) texts
    /\ passive (health_checks_of st') =
       passive (health_checks_of st)
       || existsb (fun t => (t =? passive_health_check)%string) texts.
Proof.
  induction 1 as [|k t ks texts Hk _ IH]; intros st st' E.
  - cbn in E. injection E as <-. rewrite !orb_false_r. split; reflexivity.
  - cbn [for_each] in E. ran E u s1 E1. rewrite Hk, bind_lift_returned in E1.
    destruct (IH _ _ E) as [Ha Hp]. rewrite Ha, Hp. cbn [existsb].
    unfold health_checks_of.
    destruct (t =? active_health_check)%string;
      destruct (t =? passive_health_check)%string;
      cbn in E1; injection E1 as _ <-; cbn;
      rewrite ?orb_true_r, ?orb_false_r; split; reflexivity.
Qed.

(** X10: when [Init] returns true on a configuration whose
    [failover.health_check] is a sequence of texts, the active flag is set if
    [active] is listed and the passive flag if [passive] is listed; a flag
    that was set stays set, and any other word is ignored. *)
Theorem Init_sets_health_checks n fo ks texts st :
  subscript n "failover" = Returned fo ->
  subscript fo "health_check" = Returned (Sequence ks) ->
  Forall2 (fun k t => as_string k = Returned t) ks texts ->
  fst (Init n st) = true ->
  active (health_checks (this (snd (Init n st)))) =
    active (health_checks (this st))
    || existsb (fun t => (t =? "active")%string) texts
  /\ passive (health_checks (this (snd (Init n st)))) =
     passive (health_checks (this st))
     || existsb (fun t => (t =? "passive")%string) texts.
Proof.
  intros Hn Hhc Hks Ht. apply Init_true in Ht. revert Ht.
  generalize (snd (Init n st)). intros st' E. unfold Init_body in E.
  ran E u1 s1 E1. ran E u2 s2 E2. ran E u3 s3 E3. ran E u4 s4 E4.
  ran E u5 s5 E5.
  unfold Init_failover in E5.
  rewrite Hn, bind_lift_returned, (failover_defined n fo _ _ Hn Hhc eq_refl) in E5.
  cbv [when] in E5. cbv zeta in E5.
  ran E5 u6 s6 E6. ran E5 u7 s7 E7. ran E5 u8 s8 E8.
  assert (H8 : health_checks_of s8 = health_checks_of st).
  { kept health_checks_of E8. kept health_checks_of E7. kept health_checks_of E6.
    kept health_checks_of E4. kept health_checks_of E3. kept health_checks_of E2.
    kept health_checks_of E1. reflexivity. }
  change (health_checks (this st')) with (health_checks_of st').
  kept health_checks_of E.
  unfold Init_health_check in E5. rewrite Hhc, bind_lift_returned in E5.
  cbv [IsDefined when IsSequence negb elements] in E5. cbv zeta in E5.
  destruct u5. destruct (health_check_loop ks texts Hks _ _ E5) as [Ha Hp].
  rewrite Ha, Hp, H8. split; reflexivity.
Qed.

(** X11: without a [failover] node, [Init] leaves [ring_mode],
    [max_simple_retries], the response codes and the health check flags as
    they were, whether it returns true or false. *)
Theorem Init_without_failover_keeps_failover_settings n st :
  subscript n "failover" = Returned Undefined ->
  ring_mode (this (snd (Init n st))) = ring_mode (this st)
  /\ max_simple_retries (this (snd (Init n st))) = max_simple_retries (this st)
  /\ resp_codes (this (snd (Init n st))) = resp_codes (this st)
  /\ health_checks (this (snd (Init n st))) = health_checks (this st).
Proof.
  intros Hn.
  assert (Hk : forall {X} (f : State -> X),
             (forall l, keeps f (log_line l)) ->
             keeps f (Init_scheme n) -> keeps f (Init_go_direct n) ->
             keeps f (Init_parent_is_proxy n) ->
             keeps f (Init_ignore_self_detect n) -> keeps f (Init_groups n) ->
             f (snd (Init n st)) = f st).
  { intros X f Hl K1 K2 K3 K4 K6. apply (Init_keeps f n Hl). unfold Init_body.
    apply keeps_bind; [exact K1 | intros _].
    apply keeps_bind; [exact K2 | intros _].
    apply keeps_bind; [exact K3 | intros _].
    apply keeps_bind; [exact K4 | intros _].
    apply keeps_bind; [ | intros _; exact K6 ].
    intros s. rewrite (Init_failover_absent n Hn). reflexivity. }
  repeat split.
  - apply (Hk _ ring_mode_of); try (intros; frame).
  - apply (Hk _ max_simple_retries_of); try (intros; frame).
  - apply (Hk _ codes_of); try (intros; frame).
  - apply (Hk _ health_checks_of); try (intros; frame).
Qed.

End Settings.

(** ** What [Init] never does, whether it returns true or false *)

Lemma stable_for_each_acc {P : Platform} {A B} (I : State -> Prop)
  (l : list A) (body : A -> B -> M B) :
  (forall k acc, stable I (body k acc)) ->
  forall acc, stable I (for_each_acc l acc body).
Proof.
  intros Hb. induction l as [|k rest IH]; intros acc; cbn.
  - intros st HI; exact HI.
  - apply stable_bind; [apply Hb | intros acc'; apply IH].
Qed.

(** Splits a [stable] goal along the structure of the computation; [leaf]
    closes what is left at the primitive steps. *)
Ltac stable_step leaf :=
  lazymatch goal with
  | |- stable _ (bind _ _) => apply stable_bind; [ | intros ? ]
  | |- stable _ (when ?b _) => destruct b eqn:?; cbv [when]
  | |- stable _ (for_each _ _) => apply stable_for_each; intros ?
  | |- stable _ (for_each_acc _ _ _) => apply stable_for_each_acc; intros ? ?
  | |- stable _ (for_range _ _ _) => apply stable_for_range; intros ?
  | |- stable _ (for_range_acc _ _ _ _) => apply stable_for_range_acc; intros ? ?
  | |- stable _ (if ?b then _ else _) => destruct b eqn:?
  | |- stable _ (let _ := _ in _) => cbv zeta
  | |- stable _ _ => first [ leaf | progress autounfold with init_blocks ]
  end.

Ltac stable_frame leaf := repeat (stable_step leaf).

Section Invariants.
Context {P : Platform}.

Lemma retry_code_of_guard code :
  (code >? 300) && (code <? 599) = true -> retry_code code.
Proof.
  intros H. apply andb_true_iff in H. destruct H as [H1 H2].
  rewrite Z.gtb_ltb in H1. apply Z.ltb_lt in H1. apply Z.ltb_lt in H2.
  right. lia.
Qed.

Lemma codes_within_add code st :
  retry_code code -> codes_within st ->
  codes_within
    (mkState (set_resp_codes (codes_add code (resp_codes (this st))) (this st))
       (host_status st) (logged st)).
Proof.
  intros Hc H c Hin. unfold codes_of in Hin.
  cbn [this resp_codes set_resp_codes] in Hin.
  apply (proj1 (codes_add_In _ _ _)) in Hin. destruct Hin as [-> | Hin];
    [ exact Hc | apply H; exact Hin ].
Qed.

Lemma codes_within_sort st :
  codes_within st ->
  codes_within
    (mkState (set_resp_codes (codes_sort (resp_codes (this st))) (this st))
       (host_status st) (logged st)).
Proof.
  intros H c Hin. unfold codes_of in Hin. cbn in Hin.
  apply (proj1 (codes_sort_In _ _)) in Hin. apply H. exact Hin.
Qed.

Ltac codes_leaf :=
  intros ? ?;
  first [ assumption
        | apply codes_within_sort; assumption
        | apply codes_within_add;
          [ first [ left; reflexivity
                  | apply retry_code_of_guard; assumption ]
          | assumption ] ].

Lemma Init_body_codes_within n : stable codes_within (Init_body n).
Proof. stable_frame codes_leaf. Qed.

(** X12: [Init] never puts into the response codes anything but the
    connection-failure status and codes strictly between 300 and 599,
    whatever the configuration and whether it returns true or false; so a
    strategy loaded from any configuration counts no other status as a
    failure. *)
Theorem load_counts_only_retry_codes_as_failures name n c :
  codeIsFailure (this (snd (load name n))) c = true ->
  c = STATUS_CONNECTION_FAILURE \/ 300 < c < 599.
Proof.
  intros H. apply codes_contains_In in H.
  assert (Hw : codes_within (snd (load name n))).
  { unfold load, Init.
    pose proof (Init_body_codes_within n (initial_state name)) as Hb.
    destruct (Init_body n (initial_state name)) as [[[]|ex] s1]; cbn in *.
    - apply Hb. intros x [].
    - intros x Hx. apply Hb; [ intros y [] | exact Hx ]. }
  exact (Hw c H).
Qed.

Lemma calls_since_refl st : calls_since (host_status st) st.
Proof. exists []. rewrite app_nil_r. split; [reflexivity | constructor]. Qed.

Lemma calls_since_call base host st :
  TSHostnameIsSelf host = true -> calls_since base st ->
  calls_since base
    (mkState (this st) (host_status st ++ [self_detect_down host]) (logged st)).
Proof.
  intros Hs (calls & Hc & Hall). exists (calls ++ [self_detect_down host]).
  cbn. rewrite Hc, app_assoc. split; [reflexivity | ].
  apply Forall_app. split; [exact Hall | ].
  constructor; [ | constructor ]. exists host. split; [reflexivity | exact Hs].
Qed.

Ltac calls_leaf :=
  intros ? ?;
  first [ assumption
        | apply calls_since_call; assumption ].

Lemma Init_body_calls_since base n : stable (calls_since base) (Init_body n).
Proof. stable_frame calls_leaf. Qed.

(** X13: whatever the configuration and whether it returns true or false,
    [Init] only adds calls to the host status store, and every call it adds
    marks down, with the reason SELF_DETECT and no down time, a host whose
    name is the local process: it never marks a host up and never marks
    another host down. *)
Theorem Init_only_marks_self_down n st :
  exists calls,
    host_status (snd (Init n st)) = host_status st ++ calls
    /\ Forall (fun c => exists host,
                 c = mkHostStatusSet host TS_HOST_STATUS_DOWN 0
                       TS_HOST_STATUS_SELF_DETECT
                 /\ TSHostnameIsSelf host = true) calls.
Proof.
  pose proof (Init_body_calls_since (host_status st) n st (calls_since_refl st))
    as Hb.
  unfold Init. destruct (Init_body n st) as [[[]|ex] s1]; cbn in *; exact Hb.
Qed.

Lemma lines_since_refl st : lines_since (logged st) st.
Proof. exists []. rewrite app_nil_r. split; [reflexivity | constructor]. Qed.

Lemma lines_since_line base l st :
  no_rejection_note l -> lines_since base st ->
  lines_since base (mkState (this st) (host_status st) (logged st ++ [l])).
Proof.
  intros Hl (lines & Hc & Hall). exists (lines ++ [l]).
  cbn. rewrite Hc, app_assoc. split; [reflexivity | ].
  apply Forall_app. split; [exact Hall | ]. constructor; [exact Hl | constructor].
Qed.

Ltac lines_leaf :=
  intros ? ?;
  first [ assumption
        | apply lines_since_line; [ intros ? ? ?; discriminate | assumption ] ].

Lemma Init_body_lines_since base n : stable (lines_since base) (Init_body n).
Proof. stable_frame lines_leaf. Qed.

(** X14: [Init] only adds lines to the log.  When it returns true none of
    them is a rejection note; when it returns false the last line, and only
    the last, is the rejection note, under the name of the strategy. *)
Theorem Init_reports_rejection_once n st :
  exists lines,
    Forall no_rejection_note lines
    /\ if fst (Init n st)
       then logged (snd (Init n st)) = logged st ++ lines
       else exists ex,
              logged (snd (Init n st)) =
                logged st ++ lines
                ++ [Note_error_parsing (strategy_name (this st)) ex].
Proof.
  pose proof (Init_body_lines_since (logged st) n st (lines_since_refl st)) as Hb.
  pose proof (Init_body_keeps_name n st) as Hname.
  unfold Init. destruct (Init_body n st) as [[[]|ex] s1]; cbn in *.
  - destruct Hb as (lines & Hl & Hall). exists lines. split; assumption.
  - destruct Hb as (lines & Hl & Hall). exists lines. split; [exact Hall | ].
    exists ex. unfold name_of in Hname. rewrite Hl, Hname, app_assoc. reflexivity.
Qed.

End Invariants.

(** ** The host groups a successful load leaves *)

Section LoadedGroups.
Context {P : Platform}.

Lemma load_host_shape hosts_list grp hst acc st acc' st' :
  load_host hosts_list grp hst acc st = (Returned acc', st') ->
  exists decoded s1,
    as_PLHostRecord (at_index hosts_list hst) st = (Returned decoded, s1)
    /\ acc' = acc ++ [set_indices (Z.of_nat grp) (Z.of_nat hst) decoded]
    /\ num_parents_of st' = num_parents_of st + 1
    /\ passive_health_of st' = passive_health_of st.
Proof.
  intros E. unfold load_host in E. ran E decoded s1 E1. cbv zeta in E.
  pose proof (keeps_run _ _ _ _ _ (as_PLHostRecord_keeps_this _) E1) as Ht.
  exists decoded, s1. split; [exact E1 | ].
  unfold num_parents_of, passive_health_of.
  destruct (TSHostnameIsSelf
              (hostname (set_indices (Z.of_nat grp) (Z.of_nat hst) decoded)));
    cbn in E; injection E as <- <-; cbn; rewrite Ht; repeat split; reflexivity.
Qed.

Lemma load_hosts_shape hosts_list grp count :
  forall hst acc st acc' st',
    for_range_acc count hst acc (load_host hosts_list grp) st = (Returned acc', st') ->
    exists new,
      acc' = acc ++ new
      /\ length new = count
      /\ num_parents_of st' = num_parents_of st + Z.of_nat count
      /\ passive_health_of st' = passive_health_of st
      /\ forall k rec,
           nth_error new k = Some rec ->
           exists st0 decoded,
             fst (as_PLHostRecord (at_index hosts_list (hst + k)) st0)
             = Returned decoded
             /\ rec = set_indices (Z.of_nat grp) (Z.of_nat (hst + k)) decoded.
Proof.
  induction count as [|count IH]; intros hst acc st acc' st' E; cbn [for_range_acc] in E.
  - cbn in E. injection E as <- <-. exists []. rewrite app_nil_r.
    repeat split; try reflexivity; try lia.
    intros k rec Hk. destruct k; discriminate Hk.
  - ran E acc1 s1 E1.
    destruct (load_host_shape _ _ _ _ _ _ _ E1)
      as (decoded & s0 & Hdec & -> & Hn1 & Hp1).
    destruct (IH _ _ _ _ _ E) as (new & -> & Hlen & Hn & Hp & Hrec).
    exists (set_indices (Z.of_nat grp) (Z.of_nat hst) decoded :: new).
    rewrite <- app_assoc. cbn [length app].
    repeat split; try reflexivity; try lia; try congruence.
    intros [|k] rec Hk; cbn in Hk.
    + injection Hk as <-. exists st, decoded. rewrite Nat.add_0_r, Hdec.
      split; reflexivity.
    + destruct (Hrec k rec Hk) as (st0 & d & Hd & ->).
      exists st0, d. replace (hst + S k)%nat with (S hst + k)%nat by lia.
      split; [exact Hd | reflexivity].
Qed.

Lemma load_group_shape groups_node grp st st' :
  load_group groups_node grp st = (Returned tt, st') ->
  exists hosts_inner,
    host_groups_of st' = host_groups_of st ++ [hosts_inner]
    /\ passive_health_of st' = passive_health_of st ++ [hosts_inner]
    /\ num_parents_of st' = num_parents_of st + Z.of_nat (length hosts_inner)
    /\ length hosts_inner = length (elements (at_index groups_node grp))
    /\ forall k rec,
         nth_error hosts_inner k = Some rec -> loaded_from groups_node grp k rec.
Proof.
  intros E. unfold load_group in E. cbv zeta in E.
  destruct (IsSequence (at_index groups_node grp)); cbn [negb] in E;
    [ | discriminate E ].
  ran E hosts_inner s1 E1.
  destruct (load_hosts_returned _ _ _ _ _ _ _ _ E1) as (new' & Hnew' & _ & Hg & _).
  destruct (load_hosts_shape _ _ _ _ _ _ _ _ E1) as (new & -> & Hlen & Hn & Hp & Hrec).
  cbn in E. injection E as <-. exists new.
  unfold host_groups_of, passive_health_of, num_parents_of in *. cbn.
  rewrite Hg, Hp, Hn, Hlen. repeat split; try reflexivity.
  intros k rec Hk. destruct (Hrec k rec Hk) as (st0 & d & Hd & ->).
  exists st0, d. split; [exact Hd | reflexivity].
Qed.

Lemma load_groups_shape groups_node count :
  forall grp st st',
    for_range count grp (load_group groups_node) st = (Returned tt, st') ->
    exists new,
      host_groups_of st' = host_groups_of st ++ new
      /\ passive_health_of st' = passive_health_of st ++ new
      /\ num_parents_of st' = num_parents_of st + Z.of_nat (length (concat new))
      /\ forall j hosts,
           nth_error new j = Some hosts ->
           length hosts = length (elements (at_index groups_node (grp + j)))
           /\ forall k rec,
                nth_error hosts k = Some rec ->
                loaded_from groups_node (grp + j) k rec.
Proof.
  induction count as [|count IH]; intros grp st st' E; cbn [for_range] in E.
  - cbn in E. injection E as <-. exists []. rewrite !app_nil_r. cbn.
    split; [reflexivity | ]. split; [reflexivity | ]. split; [lia | ].
    intros j hosts Hj. destruct j; discriminate Hj.
  - ran E u s1 E1. destruct u.
    destruct (load_group_shape _ _ _ _ E1) as (g & Hg1 & Hp1 & Hn1 & Hlen1 & Hrec1).
    destruct (IH _ _ _ E) as (new & Hg & Hp & Hn & Hrec).
    exists (g :: new). cbn [concat].
    rewrite Hg, Hg1, Hp, Hp1, Hn, Hn1, <- !app_assoc, length_app.
    split; [reflexivity | ]. split; [reflexivity | ]. split; [lia | ].
    intros j hosts Hj. destruct j as [|j]; cbn in Hj.
    + injection Hj as <-. rewrite Nat.add_0_r. split; [exact Hlen1 | exact Hrec1].
    + replace (grp + S j)%nat with (S grp + j)%nat by lia.
      exact (Hrec j hosts Hj).
Qed.

(** What a successful load of a new strategy holds of its groups. *)
Lemma load_shape name n st' :
  load name n = (true, st') ->
  passive_health (this st') = host_groups (this st')
  /\ num_parents (this st') = Z.of_nat (length (concat (host_groups (this st'))))
  /\ forall groups_node,
       subscript n "groups" = Returned groups_node ->
       forall j hosts,
         nth_error (host_groups (this st')) j = Some hosts ->
         length hosts = length (elements (at_index groups_node j))
         /\ forall k rec,
              nth_error hosts k = Some rec -> loaded_from groups_node j k rec.
Proof.
  intros E. apply Init_returned in E. unfold Init_body in E.
  ran E u1 s1 E1. ran E u2 s2 E2. ran E u3 s3 E3. ran E u4 s4 E4.
  ran E u5 s5 E5.
  assert (Hhg : host_groups_of s5 = []).
  { kept host_groups_of E5. kept host_groups_of E4. kept host_groups_of E3.
    kept host_groups_of E2. kept host_groups_of E1. reflexivity. }
  assert (Hph : passive_health_of s5 = []).
  { kept passive_health_of E5. kept passive_health_of E4. kept passive_health_of E3.
    kept passive_health_of E2. kept passive_health_of E1. reflexivity. }
  assert (Hnp : num_parents_of s5 = 0).
  { kept num_parents_of E5. kept num_parents_of E4. kept num_parents_of E3.
    kept num_parents_of E2. kept num_parents_of E1. reflexivity. }
  unfold Init_groups in E. ran E g s0 E0.
  apply lift_returned in E0. destruct E0 as [Hg ->].
  unfold host_groups_of, passive_health_of, num_parents_of in *.
  destruct (IsDefined g) eqn:Hd; cbn [when] in E.
  - cbv zeta in E. destruct g as [| |?|gs|?]; try discriminate E.
    cbn [IsSequence negb] in E.
    ran E u s6 E6. ran E s s7 E7. cbn in E7. injection E7 as <- <-.
    assert (H6 : host_groups_of s6 = [] /\ passive_health_of s6 = []
                 /\ num_parents_of s6 = 0).
    { unfold host_groups_of, passive_health_of, num_parents_of.
      destruct (_ >? _); cbn in E6; injection E6 as _ <-; cbn;
        rewrite Hhg, Hph, Hnp; repeat split; reflexivity. }
    destruct H6 as (H6g & H6p & H6n).
    destruct (load_groups_shape _ _ _ _ _ E) as (new & Hg' & Hp' & Hn' & Hrec).
    unfold host_groups_of, passive_health_of, num_parents_of in *.
    rewrite Hg', Hp', Hn', H6g, H6p, H6n. cbn [app].
    split; [reflexivity | ]. split; [reflexivity | ].
    intros groups_node Hgn. rewrite Hg in Hgn. injection Hgn as <-.
    intros j hosts Hj. exact (Hrec j hosts Hj).
  - cbn in E. injection E as <-. rewrite Hhg, Hph, Hnp.
    split; [reflexivity | ]. split; [reflexivity | ].
    intros gn _ j hosts Hj. destruct j; discriminate Hj.
Qed.

(** X15: after a successful load of a new strategy, [num_parents] is the
    number of host records in all the groups together. *)
Theorem load_counts_parents name n st' :
  load name n = (true, st') ->
  num_parents (this st') = Z.of_nat (length (concat (host_groups (this st')))).
Proof. intros E. exact (proj1 (proj2 (load_shape name n st' E))). Qed.

(** X16: after a successful load of a new strategy, the record at
    [host_groups[g][h]] has [group_index] [g] and [host_index] [h]: the pair
    identifies the record within the strategy. *)
Theorem load_numbers_hosts name n st' g h hosts rec :
  load name n = (true, st') ->
  nth_error (host_groups (this st')) g = Some hosts ->
  nth_error hosts h = Some rec ->
  group_index rec = Z.of_nat g /\ host_index rec = Z.of_nat h.
Proof.
  intros E Hg Hh.
  destruct (load_shape name n st' E) as (_ & _ & Hrec).
  destruct (subscript n "groups") as [groups_node|ex] eqn:Hn.
  - destruct (proj2 (Hrec groups_node eq_refl g hosts Hg) h rec Hh)
      as (st0 & d & _ & ->).
    split; reflexivity.
  - exfalso. apply Init_returned in E. unfold Init_body in E.
    ran E u1 s1 E1. ran E u2 s2 E2. ran E u3 s3 E3. ran E u4 s4 E4.
    ran E u5 s5 E5. unfold Init_groups in E. rewrite Hn in E. discriminate E.
Qed.

(** X17: after a successful load of a new strategy, the vectors handed to
    [passive_health.insert] are the loaded host groups, in order, and
    nothing else. *)
Theorem load_hands_groups_to_passive_health name n st' :
  load name n = (true, st') ->
  passive_health (this st') = host_groups (this st').
Proof. intros E. exact (proj1 (load_shape name n st' E)). Qed.

(** X18: after a successful load of a new strategy, the group
    [host_groups[g]] has one record for each entry of the configured group
    [g], and the record at position [h] is the decoding of the entry at
    position [h] with its indices set: hosts are neither dropped, nor
    reordered, nor moved between groups. *)
Theorem load_keeps_hosts_in_place name n groups_node st' g hosts :
  load name n = (true, st') ->
  subscript n "groups" = Returned groups_node ->
  nth_error (host_groups (this st')) g = Some hosts ->
  length hosts = length (elements (at_index groups_node g))
  /\ forall h rec,
       nth_error hosts h = Some rec ->
       exists st0 decoded,
         fst (as_PLHostRecord (at_index (at_index groups_node g) h) st0)
         = Returned decoded
         /\ rec = set_indices (Z.of_nat g) (Z.of_nat h) decoded.
Proof.
  intros E Hn Hg.
  exact (proj2 (proj2 (load_shape name n st' E)) groups_node Hn g hosts Hg).
Qed.

End LoadedGroups.

(** ** The cap on the number of groups *)

Section GroupCap.
Context {P : Platform}.

Lemma for_range_acc_returns {B} (body : nat -> B -> M B) count :
  forall i,
    (forall j acc st, (i <= j < i + count)%nat ->
                      exists acc' st', body j acc st = (Returned acc', st')) ->
    forall acc st,
      exists acc' st', for_range_acc count i acc body st = (Returned acc', st').
Proof.
  induction count as [|count IH]; intros i Hb acc st; cbn.
  - exists acc, st. reflexivity.
  - destruct (Hb i acc st ltac:(lia)) as (acc1 & s1 & E1).
    rewrite (bind_step _ _ _ _ _ E1). apply IH.
    intros j acc0 st0 Hj. apply Hb. lia.
Qed.

(** A host entry that decodes is loaded. *)
Lemma load_host_returns hosts_list grp hst :
  decodes (at_index hosts_list hst) ->
  forall acc st,
    exists acc' st', load_host hosts_list grp hst acc st = (Returned acc', st').
Proof.
  intros Hd acc st. destruct (Hd st) as (nh & s1 & E1).
  unfold load_host. rewrite (bind_step _ _ _ _ _ E1). cbv zeta.
  destruct (TSHostnameIsSelf
              (hostname (set_indices (Z.of_nat grp) (Z.of_nat hst) nh)));
    eexists; eexists; reflexivity.
Qed.

(** A group that is a sequence of host entries that decode is loaded. *)
Lemma load_group_returns groups_node grp hosts :
  at_index groups_node grp = Sequence hosts ->
  Forall decodes hosts ->
  forall st, exists st', load_group groups_node grp st = (Returned tt, st').
Proof.
  intros Hat Hall st. unfold load_group. cbv zeta. rewrite Hat.
  cbn [IsSequence negb elements].
  destruct (for_range_acc_returns (load_host (Sequence hosts) grp) (length hosts) 0)
    with (acc := @nil PLHostRecord) (st := st) as (acc' & s1 & E1).
  { intros j acc st0 Hj. apply load_host_returns.
    unfold at_index. cbn [elements].
    apply (proj1 (Forall_forall decodes hosts) Hall). apply nth_In. lia. }
  rewrite (bind_step _ _ _ _ _ E1). eexists. reflexivity.
Qed.

(** The groups block looks at the groups below the cap only: when those are
    sequences of host entries that decode, it returns, whatever follows
    them. *)
Lemma Init_groups_returns gs :
  (forall g,
     Z.of_nat g < Z.min (Z.of_nat (length gs)) PL_NH_MAX_GROUP_RINGS ->
     exists hosts, nth g gs Undefined = Sequence hosts /\ Forall decodes hosts) ->
  forall st,
    exists st', Init_groups (Map [("groups", Sequence gs)]) st = (Returned tt, st').
Proof.
  intros Hgood st. pose proof max_group_rings_range as Hmax.
  unfold Init_groups.
  change (subscript (Map [("groups", Sequence gs)]) "groups")
    with (Returned (Sequence gs)).
  rewrite bind_lift_returned. cbv [IsDefined when IsSequence negb]. cbv zeta.
  cbn [elements].
  assert (Hloop : forall s1,
             groups (this s1) <= Z.min (Z.of_nat (length gs)) PL_NH_MAX_GROUP_RINGS ->
             exists st', for_range (Z.to_nat (groups (this s1))) 0
                           (load_group (Sequence gs)) s1 = (Returned tt, st')).
  { intros s1 Hle. apply for_range_returns. intros j st0 Hj.
    destruct (Hgood j ltac:(lia)) as (hosts & Hnth & Hall).
    apply (load_group_returns (Sequence gs) j hosts); [ exact Hnth | exact Hall ]. }
  assert (Hmod : uint32 (Z.of_nat (length gs)) <= Z.of_nat (length gs)).
  { unfold uint32. apply Z.mod_le; lia. }
  destruct (uint32 (Z.of_nat (length gs)) >? PL_NH_MAX_GROUP_RINGS) eqn:Hcmp;
    rewrite Z.gtb_ltb in Hcmp;
    [ apply Z.ltb_lt in Hcmp | apply Z.ltb_ge in Hcmp ];
    erewrite bind_step by reflexivity; erewrite bind_step by reflexivity;
    apply Hloop; cbn; lia.
Qed.

(** C8: when the [groups] sequence has [n] entries (a count that fits
    [uint32_t]), a successful [Init] of a new strategy leaves
    [min n PL_NH_MAX_GROUP_RINGS] host groups and sets [groups] to that
    number, and the loaded groups are the first of the configured ones, in
    order: the group at index [g] has one record for each entry of the
    configured group [g], each the decoding of its entry.  The groups beyond
    the cap are dropped without being looked at: a configuration whose groups
    below the cap are sequences of host entries that decode loads, whatever
    the groups beyond the cap are. *)
Theorem Init_loads_at_most_max_group_rings name :
  (forall n gs st',
     subscript n "groups" = Returned (Sequence gs) ->
     Z.of_nat (length gs) < 2 ^ 32 ->
     load name n = (true, st') ->
     Z.of_nat (length (host_groups (this st')))
     = Z.min (Z.of_nat (length gs)) PL_NH_MAX_GROUP_RINGS
     /\ groups (this st') = Z.min (Z.of_nat (length gs)) PL_NH_MAX_GROUP_RINGS
     /\ forall g hosts,
          nth_error (host_groups (this st')) g = Some hosts ->
          length hosts = length (elements (nth g gs Undefined))
          /\ forall h rec,
               nth_error hosts h = Some rec ->
               exists st0 decoded,
                 fst (as_PLHostRecord (nth h (elements (nth g gs Undefined)) Undefined)
                        st0)
                 = Returned decoded
                 /\ rec = set_indices (Z.of_nat g) (Z.of_nat h) decoded)
  /\ (forall gs,
        (forall g,
           Z.of_nat g < Z.min (Z.of_nat (length gs)) PL_NH_MAX_GROUP_RINGS ->
           exists hosts,
             nth g gs Undefined = Sequence hosts /\ Forall decodes hosts) ->
        fst (load name (Map [("groups", Sequence gs)])) = true).
Proof.
  pose proof max_group_rings_range as Hmax. split.
  - intros n gs st' Hg Hlen E.
    rewrite <- (load_groups_consistent name n st' E).
    destruct (load_groups name n st' E) as (g & Hg' & _ & _ & Hd).
    rewrite Hg in Hg'. injection Hg' as <-.
    destruct (Hd eq_refl) as (gs' & Hgs & Hk & _). injection Hgs as <-.
    assert (Hmin : groups (this st')
                   = Z.min (Z.of_nat (length gs)) PL_NH_MAX_GROUP_RINGS).
    { rewrite Hk. unfold uint32. rewrite Z.mod_small by lia.
      destruct (Z.of_nat (length gs) >? PL_NH_MAX_GROUP_RINGS) eqn:Hcmp;
        rewrite Z.gtb_ltb in Hcmp;
        [ apply Z.ltb_lt in Hcmp | apply Z.ltb_ge in Hcmp ]; lia. }
    split; [exact Hmin | ]. split; [exact Hmin | ].
    intros j hosts Hj.
    exact (proj2 (proj2 (load_shape name n st' E)) (Sequence gs) Hg j hosts Hj).
  - intros gs Hgood. unfold load, Init, Init_body.
    set (cfg := Map _). set (st := initial_state name).
    assert (H1 : Init_scheme cfg st = (Returned tt, st)) by reflexivity.
    assert (H2 : Init_go_direct cfg st = (Returned tt, st)) by reflexivity.
    assert (H3 : Init_parent_is_proxy cfg st = (Returned tt, st)) by reflexivity.
    assert (H4 : Init_ignore_self_detect cfg st = (Returned tt, st)) by reflexivity.
    assert (H5 : Init_failover cfg st = (Returned tt, st)) by reflexivity.
    rewrite (bind_step _ _ _ _ _ H1), (bind_step _ _ _ _ _ H2),
      (bind_step _ _ _ _ _ H3), (bind_step _ _ _ _ _ H4), (bind_step _ _ _ _ _ H5).
    destruct (Init_groups_returns gs Hgood st) as [st' E]. fold cfg in E.
    rewrite E. reflexivity.
Qed.

End GroupCap.

(** ** Queries on a loaded strategy *)

Section LoadedQueries.
Context {P : Platform}.

Lemma skipn_nth_error {A} (l : list A) :
  forall n x, nth_error l n = Some x -> skipn n l = x :: skipn (S n) l.
Proof.
  induction l as [|y l IH]; intros [|n] x H; try discriminate H.
  - injection H as ->. reflexivity.
  - cbn in H. cbn [skipn]. rewrite (IH n x H). reflexivity.
Qed.

(** The scan in closed form: any available host among the groups it
    visits. *)
Lemma nextHopExists_from_closed s count :
  forall gg,
    (gg + count <= length (host_groups s))%nat ->
    nextHopExists_from count gg s
    = Some (existsb available (concat (firstn count (skipn gg (host_groups s))))).
Proof.
  induction count as [|count IH]; intros gg Hlen; cbn [nextHopExists_from].
  - reflexivity.
  - destruct (nth_error (host_groups s) gg) as [hosts|] eqn:Hnth.
    2:{ apply nth_error_None in Hnth. lia. }
    rewrite (skipn_nth_error _ _ _ Hnth). cbn [firstn concat].
    rewrite existsb_app.
    destruct (existsb available hosts); [ reflexivity | ].
    rewrite (IH (S gg)) by lia. reflexivity.
Qed.

(** X19: on every strategy a successful load leaves, [nextHopExists] stays
    inside [host_groups] and answers whether any host of any loaded group is
    available. *)
Theorem load_nextHopExists_scans_all_hosts name n st' :
  load name n = (true, st') ->
  nextHopExists (this st')
  = Some (existsb available (concat (host_groups (this st')))).
Proof.
  intros E. pose proof (load_groups_consistent name n st' E) as Hc.
  unfold nextHopExists. rewrite nextHopExists_from_closed by lia.
  rewrite Hc, Nat2Z.id. cbn [skipn]. rewrite firstn_all. reflexivity.
Qed.

Lemma uint32_range z : 0 <= uint32 z < 2 ^ 32.
Proof. unfold uint32. apply Z.mod_pos_bound. lia. Qed.

Ltac retries_leaf :=
  intros ? ?;
  first [ assumption | apply uint32_range ].

(** [Init] leaves [max_simple_retries] within the unsigned 32-bit range. *)
Lemma Init_body_retries_range n :
  stable (fun st => 0 <= max_simple_retries (this st) < 2 ^ 32) (Init_body n).
Proof. stable_frame retries_leaf. Qed.

(** X21: on a strategy a successful load leaves, with fewer than 2^32 hosts,
    and for a number of attempts that is an [unsigned int], a response is
    retryable exactly when its status is a failure and the attempts made are
    fewer than [max_simple_retries] and fewer than the hosts loaded; such a
    status is the connection-failure status or lies strictly between 300 and
    599. *)
Theorem load_bounds_retries name n st' attempts code :
  load name n = (true, st') ->
  0 <= attempts < 2 ^ 32 ->
  Z.of_nat (length (concat (host_groups (this st')))) < 2 ^ 32 ->
  (responseIsRetryable (this st') attempts code = true <->
   codeIsFailure (this st') code = true
   /\ attempts < max_simple_retries (this st')
   /\ attempts < Z.of_nat (length (concat (host_groups (this st')))))
  /\ (responseIsRetryable (this st') attempts code = true ->
      code = STATUS_CONNECTION_FAILURE \/ 300 < code < 599).
Proof.
  intros E Ha Hh.
  pose proof (proj1 (proj2 (load_shape name n st' E))) as Hnp.
  assert (Hm : 0 <= max_simple_retries (this st') < 2 ^ 32).
  { pose proof (Init_body_retries_range n (initial_state name)) as Hb.
    apply Init_returned in E. rewrite E in Hb. apply Hb. cbn. lia. }
  assert (Hiff : responseIsRetryable (this st') attempts code = true <->
                 codeIsFailure (this st') code = true
                 /\ attempts < max_simple_retries (this st')
                 /\ attempts < Z.of_nat (length (concat (host_groups (this st'))))).
  { unfold responseIsRetryable, uint32.
    rewrite !andb_true_iff, !Z.ltb_lt, Hnp, !Z.mod_small by lia. tauto. }
  split; [ exact Hiff | ].
  intros H. apply Hiff in H. destruct H as [H1 _].
  apply codes_contains_In in H1.
  pose proof (Init_body_codes_within n (initial_state name)) as Hb.
  apply Init_returned in E. rewrite E in Hb. cbn in Hb.
  apply Hb; [ intros y [] | exact H1 ].
Qed.

(** X22: a [failover.response_codes] that is present and is not a sequence
    is skipped with an error line and does not reject the strategy: a load
    that succeeds has the connection-failure status as its only response
    code, and a configuration with nothing but such a node loads. *)
Theorem Init_skips_response_codes_that_are_no_sequence name n fo rc :
  subscript n "failover" = Returned fo ->
  subscript fo "response_codes" = Returned rc ->
  IsDefined rc = true ->
  IsSequence rc = false ->
  (forall st', load name n = (true, st') ->
               resp_codes (this st') = [STATUS_CONNECTION_FAILURE])
  /\ load name (Map [("failover", Map [("response_codes", rc)])])
     = (true,
        mkState (set_resp_codes [STATUS_CONNECTION_FAILURE] (new_strategy name))
          [] [Error_response_codes name]).
Proof.
  intros Hn Hfo Hd Hs. split.
  - intros st' E. apply Init_returned in E. unfold Init_body in E.
    ran E u1 s1 E1. ran E u2 s2 E2. ran E u3 s3 E3. ran E u4 s4 E4.
    ran E u5 s5 E5.
    assert (H4 : codes_of s4 = []).
    { apply (Init_scalars_keep codes_of n (initial_state name) s4 u1 u2 u3 u4 s1 s2 s3);
        try assumption; frame. }
    change (resp_codes (this st')) with (codes_of st').
    kept codes_of E.
    unfold Init_failover in E5.
    rewrite Hn, bind_lift_returned, (failover_defined n fo _ rc Hn Hfo Hd) in E5.
    cbv [when] in E5. cbv zeta in E5.
    ran E5 u6 s6 E6. ran E5 u7 s7 E7. ran E5 u8 s8 E8.
    kept codes_of E5.
    assert (H7 : codes_of s7 = []).
    { kept codes_of E7. kept codes_of E6. exact H4. }
    unfold Init_response_codes in E8. ran E8 u9 s9 E9.
    rewrite Hfo, bind_lift_returned, Hd, Hs in E8. cbn in E8, E9.
    injection E9 as _ <-. injection E8 as _ <-.
    unfold codes_of in *. cbn. rewrite H7. reflexivity.
  - unfold load, Init, Init_body, Init_scheme, Init_go_direct,
      Init_parent_is_proxy, Init_ignore_self_detect, Init_failover, Init_ring_mode,
      Init_max_simple_retries, Init_response_codes, Init_health_check, Init_groups.
    cbn [subscript find_key String.eqb Ascii.eqb Bool.eqb].
    rewrite !bind_lift_returned. cbv [IsDefined when]. cbv zeta.
    destruct rc; try discriminate Hd; try discriminate Hs; reflexivity.
Qed.

End LoadedQueries.

(** ** The two decoders *)

Section Decoders.
Context {P : Platform}.

(** X23: a protocol written as a map is decoded without touching the state;
    the decoder throws only when [port] is present and does not convert to
    an integer; a [scheme] other than [http] and [https] is taken as NONE
    without a note; a key that is absent leaves its field as it was. *)
Theorem decode_PLNHProtocol_of_map kv nh st :
  decode_PLNHProtocol (Map kv) nh st =
    (match (if IsDefined (find_key "port" kv)
            then as_int (find_key "port" kv) else Returned (port nh)) with
     | Returned v =>
         Returned
           (mkProtocol
              (if IsDefined (find_key "scheme" kv)
               then scheme_of_text (Scalar_of (find_key "scheme" kv))
               else proto_scheme nh)
              v
              (if IsDefined (find_key "health_check_url" kv)
               then Scalar_of (find_key "health_check_url" kv)
               else health_check_url nh))
     | Thrown e => Thrown e
     end, st).
Proof.
  unfold decode_PLNHProtocol, scheme_of_text. cbn [subscript].
  generalize (find_key "scheme" kv), (find_key "port" kv),
    (find_key "health_check_url" kv).
  intros sch prt url. cbv [bind lift ret].
  destruct (IsDefined prt); [ destruct (as_int prt) as [v|e] | ];
    destruct (IsDefined sch); destruct (IsDefined url);
    try destruct (Scalar_of sch =? "http")%string;
    try destruct (Scalar_of sch =? "https")%string;
    try reflexivity; destruct nh; reflexivity.
Qed.

(** The loop over [protocol]: one protocol pushed for each entry, the rest
    of the record as it was. *)
Lemma decode_protocols_returned l :
  forall nh st nh' st',
    for_each_acc l nh
      (fun ii nh => bind (as_PLNHProtocol ii) (fun pr => ret (push_protocol pr nh)))
      st = (Returned nh', st') ->
    hostname nh' = hostname nh
    /\ length (protocols nh') = (length (protocols nh) + length l)%nat.
Proof.
  induction l as [|ii l IH]; intros nh st nh' st' E; cbn [for_each_acc] in E.
  - cbn in E. injection E as <- _. split; [reflexivity | cbn; lia].
  - ran E nh1 s1 E1. ran E1 pr s2 E2. cbn in E1. injection E1 as <- _.
    destruct (IH _ _ _ _ E) as [Hh Hl]. rewrite Hh, Hl. cbn.
    rewrite length_app. cbn. split; [reflexivity | lia].
Qed.

(** X24: a host entry that is decoded has its name from the [host] key and
    one protocol for each entry of the [protocol] sequence, and its hash
    string from [hash_string] when that is present; all three are read from
    the node under the merge tag when the entry has one, and from the entry
    itself otherwise. *)
Theorem decode_reads_the_merged_node node st nh st' :
  as_PLHostRecord node st = (Returned nh, st') ->
  exists host proto hash,
    subscript (merged_or_self node) "host" = Returned host
    /\ IsDefined host = true
    /\ hostname nh = Scalar_of host
    /\ subscript (merged_or_self node) "protocol" = Returned proto
    /\ IsSequence proto = true
    /\ length (protocols nh) = length (elements proto)
    /\ subscript (merged_or_self node) "hash_string" = Returned hash
    /\ (IsDefined hash = true -> hash_string nh = Scalar_of hash).
Proof.
  intros E. unfold as_PLHostRecord, decode_PLHostRecord in E.
  ran E merge s0 E0. apply lift_returned in E0. destruct E0 as [Hm ->].
  unfold merged_or_self. rewrite Hm. cbv zeta in E.
  set (nd := if IsDefined merge then merge else node) in *.
  ran E host s1 E1. apply lift_returned in E1. destruct E1 as [Hhost ->].
  ran E nh1 s2 E2.
  destruct (IsDefined host) eqn:Hdh; [ | discriminate E2 ].
  cbn in E2. injection E2 as <- <-.
  ran E proto s3 E3. apply lift_returned in E3. destruct E3 as [Hproto ->].
  ran E nh2 s4 E4.
  destruct (IsSequence proto) eqn:Hsp; cbn [negb] in E4; [ | discriminate E4 ].
  destruct (decode_protocols_returned _ _ _ _ _ E4) as [Hh2 Hl2]. cbn in Hh2, Hl2.
  ran E nh3 s5 E5.
  assert (H3 : hostname nh3 = hostname nh2 /\ protocols nh3 = protocols nh2).
  { destruct (IsDefined merge).
    - ran E5 w s6 E6. ran E5 x s7 E7. cbn in E5. injection E5 as <- _.
      split; reflexivity.
    - ran E5 w s6 E6. destruct (IsDefined w).
      + ran E5 x s7 E7. cbn in E5. injection E5 as <- _. split; reflexivity.
      + ran E5 u s7 E7. cbn in E5. injection E5 as <- _. split; reflexivity. }
  destruct H3 as [Hh3 Hp3].
  ran E hash s8 E8. apply lift_returned in E8. destruct E8 as [Hhash ->].
  cbn in E. injection E as <- _.
  exists host, proto, hash.
  split; [exact Hhost | ]. split; [exact Hdh | ].
  split; [ destruct (IsDefined hash); cbn; rewrite Hh3, Hh2; reflexivity | ].
  split; [exact Hproto | ]. split; [exact Hsp | ].
  split; [ destruct (IsDefined hash); cbn; rewrite Hp3, Hl2; reflexivity | ].
  split; [exact Hhash | ].
  intros Hd. rewrite Hd. reflexivity.
Qed.

(** X25: the weight of a decoded host entry is always the one written in
    the entry itself, also when the entry has a merge tag: a weight inside
    the merged node is not read.  When the entry has no weight, it was
    decoded with 1.0 and it has no merge tag. *)
Theorem decode_takes_weight_from_the_entry node w st nh st' :
  subscript node "weight" = Returned w ->
  as_PLHostRecord node st = (Returned nh, st') ->
  if IsDefined w then as_float w = Returned (weight nh)
  else weight nh = float_1_0 /\ subscript node "<<" = Returned Undefined.
Proof.
  intros Hw E. unfold as_PLHostRecord, decode_PLHostRecord in E.
  ran E merge s0 E0. apply lift_returned in E0. destruct E0 as [Hm ->].
  cbv zeta in E.
  ran E host s1 E1. ran E nh1 s2 E2. ran E proto s3 E3. ran E nh2 s4 E4.
  ran E nh3 s5 E5. ran E hash s6 E6. cbn in E. injection E as <- _.
  assert (Hweight : forall x, weight (if IsDefined hash
                                      then set_hash_string (Scalar_of hash) x
                                      else x) = weight x)
    by (intros x; destruct (IsDefined hash); reflexivity).
  rewrite Hweight. clear Hweight E6.
  destruct merge; cbn [IsDefined] in E5;
    rewrite Hw, bind_lift_returned in E5;
    try (ran E5 x s7 E7; apply lift_returned in E7; destruct E7 as [Hx ->];
         cbn in E5; injection E5 as <- _;
         destruct w; try discriminate Hx; exact Hx).
  destruct (IsDefined w).
  - ran E5 x s7 E7. apply lift_returned in E7. destruct E7 as [Hx ->].
    cbn in E5. injection E5 as <- _. exact Hx.
  - ran E5 u s7 E7. cbn in E5. injection E5 as <- _.
    split; [reflexivity | exact Hm].
Qed.

(** X26: a host entry without a [host] key is refused with
    "missing host name", and one with a [host] whose [protocol] is absent or
    is not a sequence with "expected a sequence"; in both cases nothing has
    been logged or changed. *)
Theorem decode_requires_host_and_protocols node merge st :
  subscript node "<<" = Returned merge ->
  (subscript (merged_or_self node) "host" = Returned Undefined ->
   as_PLHostRecord node st =
     (Thrown (invalid_argument "Invalid host definition, missing host name."), st))
  /\ (forall host proto,
        subscript (merged_or_self node) "host" = Returned host ->
        IsDefined host = true ->
        subscript (merged_or_self node) "protocol" = Returned proto ->
        IsSequence proto = false ->
        as_PLHostRecord node st =
          (Thrown (invalid_argument
                     "Invalid host protocol definition, expected a sequence."),
           st)).
Proof.
  intros Hm. unfold merged_or_self. rewrite Hm. split.
  - intros Hh. unfold as_PLHostRecord, decode_PLHostRecord.
    rewrite Hm, bind_lift_returned. cbv zeta. rewrite Hh. reflexivity.
  - intros host proto Hh Hd Hp Hs. unfold as_PLHostRecord, decode_PLHostRecord.
    rewrite Hm, bind_lift_returned. cbv zeta.
    rewrite Hh, bind_lift_returned, Hd.
    erewrite bind_step by reflexivity.
    rewrite Hp, bind_lift_returned, Hs. reflexivity.
Qed.

End Decoders.

(** A load that returned true, as an equation on its result. *)
Lemma load_succeeded {P : Platform} name n :
  fst (load name n) = true -> load name n = (true, snd (load name n)).
Proof. destruct (load name n) as [b st]. cbn. intros ->. reflexivity. Qed.

(** ** Runs on the concrete platform, for the properties beyond the claims *)

Section FurtherScenarios.
Local Existing Instance demo.

(** X1: [go_direct: maybe]. *)
Lemma Init_rejects_flag_that_is_no_boolean_witness :
  fst (Init cfg_bad_flag (initial_state "s")) = false.
Proof.
  apply (Init_rejects_flag_that_is_no_boolean cfg_bad_flag "go_direct"
           (Scalar "maybe") BadConversion (initial_state "s"));
    [ left; reflexivity | reflexivity | reflexivity | reflexivity ].
Defined.

(** X2: [max_simple_retries: many]. *)
Lemma Init_rejects_max_simple_retries_that_is_no_integer_witness :
  fst (Init cfg_bad_retries (initial_state "s")) = false.
Proof.
  apply (Init_rejects_max_simple_retries_that_is_no_integer cfg_bad_retries
           (Map [("max_simple_retries", Scalar "many")]) (Scalar "many")
           BadConversion (initial_state "s"));
    reflexivity.
Defined.

(** X3: [response_codes: [503, five]]. *)
Lemma Init_rejects_response_code_that_is_no_integer_witness :
  fst (Init cfg_codes_text (initial_state "s")) = false.
Proof.
  apply (Init_rejects_response_code_that_is_no_integer cfg_codes_text
           (Map [("response_codes", Sequence [Scalar "503"; Scalar "five"])])
           [Scalar "503"; Scalar "five"] (Scalar "five") BadConversion
           (initial_state "s"));
    [ reflexivity | reflexivity | right; left; reflexivity | reflexivity ].
Defined.

(** X4: the second of two groups is a scalar. *)
Lemma Init_rejects_group_that_is_no_sequence_witness :
  fst (Init cfg_bad_group (initial_state "s")) = false.
Proof.
  apply (Init_rejects_group_that_is_no_sequence cfg_bad_group
           [Sequence [host_node "p1" []]; Scalar "p2"] 1 (initial_state "s"));
    [ reflexivity | cbn; lia | cbn; lia | cbn; lia | reflexivity ].
Defined.

(** X5: the second host of the group has no name; the first, the local
    process, has been marked down all the same. *)
Lemma Init_rejects_host_that_does_not_decode_witness :
  fst (Init cfg_bad_host (initial_state "s")) = false
  /\ host_status (snd (Init cfg_bad_host (initial_state "s")))
     = [self_detect_down "localhost"].
Proof.
  split; [ | reflexivity ].
  apply (Init_rejects_host_that_does_not_decode cfg_bad_host
           [Sequence [host_node "localhost" []; host_without_name]] 0
           [host_node "localhost" []; host_without_name] 1 (initial_state "s"));
    [ reflexivity | cbn; lia | cbn; lia | reflexivity | cbn; lia | ].
  intros st nh st' E. discriminate E.
Defined.

(** X6: two keys [Init] does not know. *)
Lemma Init_ignores_unknown_keys_witness :
  Init cfg_unknown_keys (initial_state "s") = (true, initial_state "s").
Proof.
  apply (Init_ignores_unknown_keys cfg_unknown_keys (initial_state "s"));
    reflexivity.
Defined.

(** X7: [scheme: gopher]. *)
Lemma Init_sets_scheme_witness :
  fst (load "s" cfg_settings) = true
  /\ scheme (this (snd (load "s" cfg_settings))) = PL_NH_SCHEME_NONE.
Proof.
  split; [ reflexivity | ].
  apply (Init_sets_scheme cfg_settings (Scalar "gopher") (initial_state "s"));
    reflexivity.
Defined.

(** X8: [go_direct: false], [parent_is_proxy: false],
    [ignore_self_detect: true]. *)
Lemma Init_sets_flags_witness :
  as_bool (Scalar "false") = Returned (go_direct (this (snd (load "s" cfg_settings))))
  /\ as_bool (Scalar "false")
     = Returned (parent_is_proxy (this (snd (load "s" cfg_settings))))
  /\ as_bool (Scalar "true")
     = Returned (ignore_self_detect (this (snd (load "s" cfg_settings)))).
Proof.
  apply (Init_sets_flags cfg_settings (Scalar "false") (Scalar "false")
           (Scalar "true") (initial_state "s"));
    reflexivity.
Defined.

(** X9: [ring_mode: exhaust_ring], [max_simple_retries: 3]. *)
Lemma Init_sets_failover_scalars_witness :
  ring_mode (this (snd (load "s" cfg_settings))) = PL_NH_EXHAUST_RING
  /\ exists v,
       as_int (Scalar "3") = Returned v
       /\ max_simple_retries (this (snd (load "s" cfg_settings))) = v mod 2 ^ 32.
Proof.
  apply (Init_sets_failover_scalars cfg_settings
           (find_key "failover" [("failover", find_key "failover"
                                                (match cfg_settings with
                                                 | Map kv => kv
                                                 | _ => []
                                                 end))])
           (Scalar "exhaust_ring") (Scalar "3") (initial_state "s"));
    reflexivity.
Defined.

(** With [max_simple_retries: -1] the count stored is 4294967295. *)
Example Init_negative_max_simple_retries_example :
  fst (load "s" cfg_negative_retries) = true
  /\ max_simple_retries (this (snd (load "s" cfg_negative_retries))) = 4294967295.
Proof. vm_compute. split; reflexivity. Qed.

(** X10: [health_check: [passive, other]]. *)
Lemma Init_sets_health_checks_witness :
  active (health_checks (this (snd (load "s" cfg_settings)))) = false
  /\ passive (health_checks (this (snd (load "s" cfg_settings)))) = true.
Proof.
  refine (Init_sets_health_checks cfg_settings
            (match cfg_settings with
             | Map kv => find_key "failover" kv
             | _ => Undefined
             end)
            [Scalar "passive"; Scalar "other"] ["passive"; "other"]
            (initial_state "s") eq_refl eq_refl _ eq_refl).
  repeat constructor.
Defined.

(** X11: two groups and no [failover]. *)
Lemma Init_without_failover_keeps_failover_settings_witness :
  ring_mode (this (snd (load "s" cfg_two_groups))) = PL_NH_ALTERNATE_RING
  /\ max_simple_retries (this (snd (load "s" cfg_two_groups))) = 1
  /\ resp_codes (this (snd (load "s" cfg_two_groups))) = []
  /\ health_checks (this (snd (load "s" cfg_two_groups))) = mkHealthChecks false false.
Proof.
  apply (Init_without_failover_keeps_failover_settings cfg_two_groups
           (initial_state "s")).
  reflexivity.
Defined.

(** X12: 503 is a failure of the loaded strategy, and lies between 300 and
    599. *)
Lemma load_counts_only_retry_codes_as_failures_witness :
  codeIsFailure (this (snd (load "s" cfg_settings))) 503 = true
  /\ (503 = 0 \/ 300 < 503 < 599).
Proof.
  split; [ reflexivity | ].
  assert (H : codeIsFailure (this (snd (load "s" cfg_settings))) 503 = true)
    by (vm_compute; reflexivity).
  exact (load_counts_only_retry_codes_as_failures "s" cfg_settings 503 H).
Defined.

(** X15: three hosts in two groups. *)
Lemma load_counts_parents_witness :
  load "s" cfg_settings = (true, snd (load "s" cfg_settings))
  /\ num_parents (this (snd (load "s" cfg_settings))) = 3.
Proof.
  assert (E : load "s" cfg_settings = (true, snd (load "s" cfg_settings)))
    by (apply load_succeeded; vm_compute; reflexivity).
  split; [ exact E | ].
  rewrite (load_counts_parents "s" cfg_settings _ E). reflexivity.
Defined.

(** X16: the only host of the second group. *)
Lemma load_numbers_hosts_witness :
  group_index
    (nth 0 (nth 1 (host_groups (this (snd (load "s" cfg_settings)))) [])
       new_host_record) = 1
  /\ host_index
       (nth 0 (nth 1 (host_groups (this (snd (load "s" cfg_settings)))) [])
          new_host_record) = 0.
Proof.
  assert (E : load "s" cfg_settings = (true, snd (load "s" cfg_settings)))
    by (apply load_succeeded; vm_compute; reflexivity).
  apply (load_numbers_hosts "s" cfg_settings (snd (load "s" cfg_settings)) 1 0
           (nth 1 (host_groups (this (snd (load "s" cfg_settings)))) [])
           (nth 0 (nth 1 (host_groups (this (snd (load "s" cfg_settings)))) [])
              new_host_record) E);
    apply nth_error_nth'; vm_compute; lia.
Defined.

(** X17: both groups were handed over. *)
Lemma load_hands_groups_to_passive_health_witness :
  length (passive_health (this (snd (load "s" cfg_settings)))) = 2%nat
  /\ passive_health (this (snd (load "s" cfg_settings)))
     = host_groups (this (snd (load "s" cfg_settings))).
Proof.
  assert (E : load "s" cfg_settings = (true, snd (load "s" cfg_settings)))
    by (apply load_succeeded; vm_compute; reflexivity).
  split; [ vm_compute; reflexivity | ].
  exact (load_hands_groups_to_passive_health "s" cfg_settings _ E).
Defined.

(** X18: the first group has the two hosts it was configured with. *)
Lemma load_keeps_hosts_in_place_witness :
  length (nth 0 (host_groups (this (snd (load "s" cfg_settings)))) []) = 2%nat.
Proof.
  assert (E : load "s" cfg_settings = (true, snd (load "s" cfg_settings)))
    by (apply load_succeeded; vm_compute; reflexivity).
  assert (Hg : nth_error (host_groups (this (snd (load "s" cfg_settings)))) 0
               = Some (nth 0 (host_groups (this (snd (load "s" cfg_settings)))) []))
    by (apply nth_error_nth'; vm_compute; lia).
  rewrite (proj1 (load_keeps_hosts_in_place "s" cfg_settings
                    (match cfg_settings with
                     | Map kv => find_key "groups" kv
                     | _ => Undefined
                     end) _ 0 _ E eq_refl Hg)).
  reflexivity.
Defined.

(** X19: a host is available. *)
Lemma load_nextHopExists_scans_all_hosts_witness :
  nextHopExists (this (snd (load "s" cfg_settings))) = Some true.
Proof.
  assert (E : load "s" cfg_settings = (true, snd (load "s" cfg_settings)))
    by (apply load_succeeded; vm_compute; reflexivity).
  rewrite (load_nextHopExists_scans_all_hosts "s" cfg_settings _ E).
  reflexivity.
Defined.

(** X21: with [max_simple_retries: -1], one host and 503 listed, a 503 is
    retryable before any attempt and is not after the first. *)
Lemma load_bounds_retries_witness :
  responseIsRetryable (this (snd (load "s" cfg_negative_retries))) 0 503 = true
  /\ responseIsRetryable (this (snd (load "s" cfg_negative_retries))) 1 503 = false
  /\ (0 < max_simple_retries (this (snd (load "s" cfg_negative_retries)))
      /\ 0 < Z.of_nat (length (concat (host_groups
                                        (this (snd (load "s" cfg_negative_retries)))))))
  /\ (503 = 0 \/ 300 < 503 < 599).
Proof.
  assert (E : load "s" cfg_negative_retries
              = (true, snd (load "s" cfg_negative_retries)))
    by (apply load_succeeded; vm_compute; reflexivity).
  assert (H : responseIsRetryable (this (snd (load "s" cfg_negative_retries))) 0 503
              = true)
    by (vm_compute; reflexivity).
  assert (Ha : 0 <= 0 < 2 ^ 32) by lia.
  assert (Hh : Z.of_nat (length (concat (host_groups
                                           (this (snd (load "s" cfg_negative_retries))))))
               < 2 ^ 32)
    by (vm_compute; reflexivity).
  destruct (load_bounds_retries "s" cfg_negative_retries _ 0 503 E Ha Hh)
    as [Hiff Hcode].
  split; [ exact H | ]. split; [ vm_compute; reflexivity | ].
  split; [ exact (proj2 (proj1 Hiff H)) | exact (Hcode H) ].
Defined.

(** X22: [response_codes: 503], a scalar. *)
Lemma Init_skips_response_codes_that_are_no_sequence_witness :
  load "s" cfg_codes_scalar
  = (true,
     mkState (set_resp_codes [0] (new_strategy "s")) [] [Error_response_codes "s"]).
Proof.
  exact (proj2 (Init_skips_response_codes_that_are_no_sequence "s" cfg_codes_scalar
                  (Map [("response_codes", Scalar "503")]) (Scalar "503")
                  eq_refl eq_refl eq_refl eq_refl)).
Defined.

(** X24: host, protocols and hash string come from under the merge tag. *)
Lemma decode_reads_the_merged_node_witness :
  as_PLHostRecord host_merged_weighted (initial_state "s")
  = (Returned (mkHostRecord "p1" [] 500 "" (-1) (-1) true), initial_state "s")
  /\ exists host,
       subscript (merged_or_self host_merged_weighted) "host" = Returned host
       /\ "p1" = Scalar_of host.
Proof.
  assert (E : as_PLHostRecord host_merged_weighted (initial_state "s")
              = (Returned (mkHostRecord "p1" [] 500 "" (-1) (-1) true),
                 initial_state "s"))
    by reflexivity.
  split; [ exact E | ].
  destruct (decode_reads_the_merged_node host_merged_weighted (initial_state "s")
              _ _ E)
    as (host & proto & hash & Hh & _ & Hname & _).
  exists host. split; [ exact Hh | exact Hname ].
Defined.

(** X25: 0.5 next to the tag, 2.0 under it: the weight is 0.5. *)
Lemma decode_takes_weight_from_the_entry_witness :
  as_PLHostRecord host_merged_weighted (initial_state "s")
  = (Returned (mkHostRecord "p1" [] 500 "" (-1) (-1) true), initial_state "s")
  /\ as_float (Scalar "0.5") = Returned 500.
Proof.
  assert (E : as_PLHostRecord host_merged_weighted (initial_state "s")
              = (Returned (mkHostRecord "p1" [] 500 "" (-1) (-1) true),
                 initial_state "s"))
    by reflexivity.
  split; [ exact E | ].
  exact (decode_takes_weight_from_the_entry host_merged_weighted (Scalar "0.5")
           (initial_state "s") _ _ eq_refl E).
Defined.

(** X26: an entry without a name, and one without protocols. *)
Lemma decode_requires_host_and_protocols_witness :
  as_PLHostRecord host_without_name (initial_state "s")
  = (Thrown (invalid_argument "Invalid host definition, missing host name."),
     initial_state "s")
  /\ as_PLHostRecord host_without_protocol (initial_state "s")
     = (Thrown (invalid_argument
                  "Invalid host protocol definition, expected a sequence."),
        initial_state "s").
Proof.
  split.
  - apply (proj1 (decode_requires_host_and_protocols host_without_name Undefined
                    (initial_state "s") eq_refl)).
    reflexivity.
  - apply (proj2 (decode_requires_host_and_protocols host_without_protocol
                    Undefined (initial_state "s") eq_refl)
             (Scalar "p1") Undefined);
      reflexivity.
Defined.

End FurtherScenarios.

(** ** A configuration with more groups than the cap *)

Section GroupCapScenario.
Local Existing Instance demo.

Lemma numbered_host_decodes g : decodes (numbered_host g).
Proof.
  intros st. unfold as_PLHostRecord, decode_PLHostRecord, numbered_host.
  eexists. eexists. reflexivity.
Qed.

Lemma groups_over_cap_below g :
  (g < 32)%nat ->
  nth g groups_over_cap Undefined = Sequence [numbered_host g].
Proof.
  intros Hg. unfold groups_over_cap.
  rewrite app_nth1 by (rewrite length_map, length_seq; exact Hg).
  rewrite (nth_indep _ Undefined (Sequence [numbered_host 0]))
    by (rewrite length_map, length_seq; exact Hg).
  rewrite (map_nth (fun g => Sequence [numbered_host g]) (seq 0 32) 0%nat g).
  rewrite seq_nth by exact Hg. reflexivity.
Qed.

(** C8: 33 entries under a cap of 32, the last of them no group at all.  The
    configuration loads with 32 groups, and they are the first 32 configured
    ones, in order: the host of the group at index [g] carries the hash
    string of the configured group [g]. *)
Lemma Init_loads_at_most_max_group_rings_witness :
  Z.of_nat (length groups_over_cap) = 33
  /\ fst (load "s" cfg_over_cap) = true
  /\ Z.of_nat (length (host_groups (this (snd (load "s" cfg_over_cap))))) = 32
  /\ groups (this (snd (load "s" cfg_over_cap))) = 32
  /\ map (map hash_string) (host_groups (this (snd (load "s" cfg_over_cap))))
     = map (fun g => [String (ascii_of_nat (65 + g)) EmptyString]) (seq 0 32).
Proof.
  assert (Hlen : Z.of_nat (length groups_over_cap) = 33) by reflexivity.
  assert (Ht : fst (load "s" cfg_over_cap) = true).
  { apply (proj2 (Init_loads_at_most_max_group_rings "s") groups_over_cap).
    intros g Hg.
    assert (Hg' : (g < 32)%nat).
    { rewrite Hlen in Hg. change PL_NH_MAX_GROUP_RINGS with 32 in Hg. lia. }
    exists [numbered_host g]. split; [ exact (groups_over_cap_below g Hg') | ].
    constructor; [ apply numbered_host_decodes | constructor ]. }
  pose proof (load_succeeded "s" cfg_over_cap Ht) as E.
  destruct (proj1 (Init_loads_at_most_max_group_rings "s") cfg_over_cap
              groups_over_cap (snd (load "s" cfg_over_cap)) eq_refl
              ltac:(rewrite Hlen; lia) E)
    as (Hn & Hgroups & _).
  split; [ exact Hlen | ]. split; [ exact Ht | ].
  split; [ rewrite Hn, Hlen; reflexivity | ].
  split; [ rewrite Hgroups, Hlen; reflexivity | ].
  vm_compute. reflexivity.
Defined.

End GroupCapScenario.
